(** * Swarm console (swarm-ui/src/App.tsx): run orchestration core

    A shallow embedding of the React component [App] of the Strands Swarm
    Console: the helpers [buildUrl], [safeParse], [addTrace],
    [clearTraces], [updateAgent], [tokenSummary], the bounded poll loop
    [fetchFinal], the asynchronous function [runSwarm] with the EventSource
    listeners it installs, and of the JSX what decides whether the
    component renders.

    JavaScript is single threaded: an [async] function runs until its next
    [await], and is resumed by a later event (a settled [fetch], a settled
    [Response.json()], a fired timer).  The embedding follows this: every
    synchronous segment of the source is a computation in a small
    state-and-exception monad over the component's state, a suspended
    function is a [Task] stored under a handle, and the environment drives
    the component through [Event]s: what the operator does on the page,
    and what the network and the timers report.  [step] is what the
    handlers do to the state; [deliver] adds the render that follows.

    The source file holds two revisions of the component.  The embedding
    follows the later one, which adds [buildUrl], polls up to 120 times and
    closes the previous stream when a run starts; [safeParse], [addTrace],
    [updateAgent] and the test of the task are the same in both.

    Strings are JavaScript strings, that is sequences of UTF-16 code units.
    What the host provides (JSON.parse, the URL constructor, Date.now, the
    build-time constant VITE_API_BASE, ...) is gathered in a [Platform]. *)

From Stdlib Require Import ZArith NArith Ascii String DecimalString.
From stdpp Require Import base option list gmap.

#[local] Set Warnings "-register-all".
Local Open Scope N_scope.

(** ** JavaScript strings *)

(** A string is the list of its UTF-16 code units. *)
Abbreviation jsstring := (list N).

(** The code units of an ASCII literal of the source. *)
Definition js (s : string) : jsstring :=
  (λ a, N_of_ascii a) <$> list_ascii_of_string s.

(** [`${n}`] for a non-negative integer such as an HTTP status. *)
Definition dec (n : N) : jsstring :=
  js (NilZero.string_of_uint (N.to_uint n)).

(** WhiteSpace and LineTerminator code points of ECMAScript, the ones
    [String.prototype.trim] removes. *)
Definition is_whitespace (c : N) : bool :=
  bool_decide (c ∈ [9; 10; 11; 12; 13; 32; 160; 5760; 8232; 8233; 8239; 8287; 12288; 65279])
  || ((8192 <=? c) && (c <=? 8202)).

Fixpoint trimStart (s : jsstring) : jsstring :=
  match s with
  | c :: r => if is_whitespace c then trimStart r else s
  | [] => []
  end.

Definition trimEnd (s : jsstring) : jsstring := reverse (trimStart (reverse s)).

(** [s.trim()] *)
Definition trim (s : jsstring) : jsstring := trimEnd (trimStart s).

Definition slash : N := 47.

(** [path.replace(/^\/+/, '')] *)
Fixpoint strip_leading_slashes (s : jsstring) : jsstring :=
  match s with
  | c :: r => if bool_decide (c = slash) then strip_leading_slashes r else s
  | [] => []
  end.

(** [s.replace(/\/+$/, '/')]: a trailing run of slashes becomes one slash, a
    string that does not end in a slash is left as it is. *)
Definition collapse_trailing_slashes (s : jsstring) : jsstring :=
  match reverse s with
  | c :: r =>
      if bool_decide (c = slash)
      then reverse (strip_leading_slashes r) ++ [slash]
      else s
  | [] => []
  end.

(** [a || b] on strings: the empty string is falsy. *)
Definition str_or (a b : jsstring) : jsstring :=
  match a with [] => b | _ => a end.

(** ** Values *)

(** A value decoded from JSON.  A number is kept as the decimal literal that
    denotes it; its conversion to a binary64 is the engine's and is only
    reached through [Number_truthy] and [Number_toString] of the platform.
    An object keeps its members in source order; with a repeated key the
    last member wins, as in JSON.parse. *)
Inductive json : Type :=
  | JNull
  | JBool (b : bool)
  | JNum (literal : jsstring)
  | JStr (s : jsstring)
  | JArr (xs : list json)
  | JObj (members : list (jsstring * json)).

(** A JavaScript value as the component sees it: [None] is [undefined]. *)
Abbreviation jsval := (option json).
Abbreviation undefined := (@None json).
Abbreviation null := (Some JNull).

Fixpoint obj_get (k : jsstring) (members : list (jsstring * json)) : jsval :=
  match members with
  | [] => None
  | (k', v) :: r =>
      match obj_get k r with
      | Some x => Some x
      | None => if bool_decide (k = k') then Some v else None
      end
  end.

(** [d?.k] for the property names the source reads ([task], [level],
    [message], [error], [status], [has_output], [output_preview],
    [transcript_preview], the token counts of a usage object, and in the
    JSX [agent], [preview], [role], [stop_reason], [usage], [text],
    [transcript], [node_history]) and [d.k] on a value that is not null
    ([run_id]): only an object has such a property; strings, numbers,
    booleans and arrays have none under these names, and [?.] turns null
    and undefined into undefined. *)
Definition get (d : jsval) (k : string) : jsval :=
  match d with
  | Some (JObj members) => obj_get (js k) members
  | _ => None
  end.

(** Exceptions: a computation completes normally or throws.  Everything the
    source throws or catches is an Error object, of which only [message] is
    ever read. *)
Inductive completion (A : Type) : Type :=
  | Normal (a : A)
  | Throw (message : jsstring).
Arguments Normal {A} a.
Arguments Throw {A} message.

(** ** Data model *)

(** An agent object at run time.  A field reads as [None] when the property
    is absent or holds undefined; no read in the source tells these apart. *)
Record AgentSpec : Type := {
  name : option jsstring;
  system_prompt : option jsstring;
  model : option jsstring;
}.

(** [Partial<AgentSpec>]: each key is absent ([None]) or present with a
    value, which may be undefined as in [{ model: e.target.value || undefined }]. *)
Record AgentPatch : Type := {
  patch_name : option (option jsstring);
  patch_system_prompt : option (option jsstring);
  patch_model : option (option jsstring);
}.

(** An array element: an assignment past the end leaves holes, which a
    later spread turns into undefined elements. *)
Inductive slot : Type :=
  | Hole
  | Undefined
  | Agent (a : AgentSpec).

(** Numeric settings are taken integral; the component only carries them
    into the submitted payload. *)
Record SwarmSettings : Type := {
  max_handoffs : Z;
  max_iterations : Z;
  execution_timeout : Z;
  node_timeout : Z;
  repetitive_handoff_detection_window : Z;
  repetitive_handoff_min_unique_agents : Z;
  entry_point : jsstring;
}.

Inductive TraceType : Type :=
  | Ready | Start | Log | Error | Done | Summary | ClientError.

(** [Omit<TraceEvent, 'ts'>]: what a listener hands to [addTrace].  The
    listeners never set [node_history]. *)
Record TraceFields : Type := {
  type : TraceType;
  level : jsval;
  message : jsval;
  run_id : jsval;
  ev_task : jsval;
  status : jsval;
  has_output : jsval;
  output_preview : jsval;
  transcript_preview : jsval;
}.

Record TraceEvent : Type := {
  ts : Z;
  fields : TraceFields;
}.

Inductive Tab : Type := Trace | Transcript | Output.

(** An EventSource object, with the [run_id] its listeners close over. *)
Record EventSource : Type := {
  es_url : jsstring;
  es_run_id : jsval;
  closed : bool;
}.

(** The body of the submit request, before [JSON.stringify]. *)
Record Payload : Type := {
  payload_task : jsstring;
  payload_agents : list slot;
  payload_settings : SwarmSettings;
}.

Inductive Request : Type :=
  | GET (url : jsstring)
  | POST (url : jsstring) (body : Payload).

(** A suspended [async] function: where it waits and what it closes over. *)
Inductive Task : Type :=
  (** [runSwarm] at [await fetch(buildUrl('api/run/start'), ...)] *)
  | AwaitStart
  (** [runSwarm] at [await startRes.json()] *)
  | AwaitStartBody
  (** the [done] listener inside [fetchFinal], at [await fetch(url)] of
      iteration [i] *)
  | AwaitPoll (url : jsstring) (i : nat)
  (** ... at [await new Promise(res => setTimeout(res, 1000))] *)
  | AwaitPollTimer (url : jsstring) (i : nat)
  (** ... at [await r.json()] *)
  | AwaitPollBody.

(** The state cells of the component ([useState], [useRef]) followed by the
    part of the host it interacts with. *)
Record World : Type := {
  task : jsstring;
  agents : list slot;
  settings : SwarmSettings;
  loading : bool;
  (** [RunResponse | null]; [JNull] is null *)
  resp : json;
  (** [string | null] *)
  error : option jsstring;
  runId : jsval;
  streaming : bool;
  traces : list TraceEvent;
  (** [esRef.current], an index into [sources] *)
  esRef : option nat;
  activeTab : Tab;
  (** every EventSource constructed so far *)
  sources : list EventSource;
  (** the suspended async functions, by handle *)
  pending : gmap nat Task;
  (** the number of handles given out *)
  spawned : nat;
  (** every request issued through [fetch], oldest first *)
  requests : list Request;
  (** the number of [Date.now()] readings taken *)
  clock : nat;
}.

Definition set_task (v : jsstring) (w : World) : World :=
  {| task := v; agents := agents w; settings := settings w; loading := loading w;
     resp := resp w; error := error w; runId := runId w; streaming := streaming w;
     traces := traces w; esRef := esRef w; activeTab := activeTab w;
     sources := sources w; pending := pending w; spawned := spawned w;
     requests := requests w; clock := clock w |}.
Definition set_agents (v : list slot) (w : World) : World :=
  {| task := task w; agents := v; settings := settings w; loading := loading w;
     resp := resp w; error := error w; runId := runId w; streaming := streaming w;
     traces := traces w; esRef := esRef w; activeTab := activeTab w;
     sources := sources w; pending := pending w; spawned := spawned w;
     requests := requests w; clock := clock w |}.
Definition set_settings (v : SwarmSettings) (w : World) : World :=
  {| task := task w; agents := agents w; settings := v; loading := loading w;
     resp := resp w; error := error w; runId := runId w; streaming := streaming w;
     traces := traces w; esRef := esRef w; activeTab := activeTab w;
     sources := sources w; pending := pending w; spawned := spawned w;
     requests := requests w; clock := clock w |}.
Definition set_loading (v : bool) (w : World) : World :=
  {| task := task w; agents := agents w; settings := settings w; loading := v;
     resp := resp w; error := error w; runId := runId w; streaming := streaming w;
     traces := traces w; esRef := esRef w; activeTab := activeTab w;
     sources := sources w; pending := pending w; spawned := spawned w;
     requests := requests w; clock := clock w |}.
Definition set_resp (v : json) (w : World) : World :=
  {| task := task w; agents := agents w; settings := settings w; loading := loading w;
     resp := v; error := error w; runId := runId w; streaming := streaming w;
     traces := traces w; esRef := esRef w; activeTab := activeTab w;
     sources := sources w; pending := pending w; spawned := spawned w;
     requests := requests w; clock := clock w |}.
Definition set_error (v : option jsstring) (w : World) : World :=
  {| task := task w; agents := agents w; settings := settings w; loading := loading w;
     resp := resp w; error := v; runId := runId w; streaming := streaming w;
     traces := traces w; esRef := esRef w; activeTab := activeTab w;
     sources := sources w; pending := pending w; spawned := spawned w;
     requests := requests w; clock := clock w |}.
Definition set_runId (v : jsval) (w : World) : World :=
  {| task := task w; agents := agents w; settings := settings w; loading := loading w;
     resp := resp w; error := error w; runId := v; streaming := streaming w;
     traces := traces w; esRef := esRef w; activeTab := activeTab w;
     sources := sources w; pending := pending w; spawned := spawned w;
     requests := requests w; clock := clock w |}.
Definition set_streaming (v : bool) (w : World) : World :=
  {| task := task w; agents := agents w; settings := settings w; loading := loading w;
     resp := resp w; error := error w; runId := runId w; streaming := v;
     traces := traces w; esRef := esRef w; activeTab := activeTab w;
     sources := sources w; pending := pending w; spawned := spawned w;
     requests := requests w; clock := clock w |}.
Definition set_traces (v : list TraceEvent) (w : World) : World :=
  {| task := task w; agents := agents w; settings := settings w; loading := loading w;
     resp := resp w; error := error w; runId := runId w; streaming := streaming w;
     traces := v; esRef := esRef w; activeTab := activeTab w; sources := sources w;
     pending := pending w; spawned := spawned w; requests := requests w;
     clock := clock w |}.
Definition set_esRef (v : option nat) (w : World) : World :=
  {| task := task w; agents := agents w; settings := settings w; loading := loading w;
     resp := resp w; error := error w; runId := runId w; streaming := streaming w;
     traces := traces w; esRef := v; activeTab := activeTab w; sources := sources w;
     pending := pending w; spawned := spawned w; requests := requests w;
     clock := clock w |}.
Definition set_activeTab (v : Tab) (w : World) : World :=
  {| task := task w; agents := agents w; settings := settings w; loading := loading w;
     resp := resp w; error := error w; runId := runId w; streaming := streaming w;
     traces := traces w; esRef := esRef w; activeTab := v; sources := sources w;
     pending := pending w; spawned := spawned w; requests := requests w;
     clock := clock w |}.
Definition set_sources (v : list EventSource) (w : World) : World :=
  {| task := task w; agents := agents w; settings := settings w; loading := loading w;
     resp := resp w; error := error w; runId := runId w; streaming := streaming w;
     traces := traces w; esRef := esRef w; activeTab := activeTab w; sources := v;
     pending := pending w; spawned := spawned w; requests := requests w;
     clock := clock w |}.
Definition set_pending (v : gmap nat Task) (w : World) : World :=
  {| task := task w; agents := agents w; settings := settings w; loading := loading w;
     resp := resp w; error := error w; runId := runId w; streaming := streaming w;
     traces := traces w; esRef := esRef w; activeTab := activeTab w;
     sources := sources w; pending := v; spawned := spawned w; requests := requests w;
     clock := clock w |}.
Definition set_spawned (v : nat) (w : World) : World :=
  {| task := task w; agents := agents w; settings := settings w; loading := loading w;
     resp := resp w; error := error w; runId := runId w; streaming := streaming w;
     traces := traces w; esRef := esRef w; activeTab := activeTab w;
     sources := sources w; pending := pending w; spawned := v; requests := requests w;
     clock := clock w |}.
Definition set_requests (v : list Request) (w : World) : World :=
  {| task := task w; agents := agents w; settings := settings w; loading := loading w;
     resp := resp w; error := error w; runId := runId w; streaming := streaming w;
     traces := traces w; esRef := esRef w; activeTab := activeTab w;
     sources := sources w; pending := pending w; spawned := spawned w; requests := v;
     clock := clock w |}.
Definition set_clock (v : nat) (w : World) : World :=
  {| task := task w; agents := agents w; settings := settings w; loading := loading w;
     resp := resp w; error := error w; runId := runId w; streaming := streaming w;
     traces := traces w; esRef := esRef w; activeTab := activeTab w;
     sources := sources w; pending := pending w; spawned := spawned w;
     requests := requests w; clock := v |}.


Definition DEFAULT_AGENTS : list slot :=
  [ Agent {| name := Some (js "researcher");
             system_prompt := Some (js "You are a research specialist..."); model := None |};
    Agent {| name := Some (js "coder");
             system_prompt := Some (js "You are a coding specialist..."); model := None |};
    Agent {| name := Some (js "reviewer");
             system_prompt := Some (js "You are a code review specialist..."); model := None |};
    Agent {| name := Some (js "architect");
             system_prompt := Some (js "You are a system architecture specialist...");
             model := None |} ].

Definition DEFAULT_SETTINGS : SwarmSettings :=
  {| max_handoffs := 20; max_iterations := 20; execution_timeout := 900;
     node_timeout := 300; repetitive_handoff_detection_window := 8;
     repetitive_handoff_min_unique_agents := 3; entry_point := js "researcher" |}.

(** The component as first rendered. *)
Definition initial : World :=
  {| task := []; agents := DEFAULT_AGENTS; settings := DEFAULT_SETTINGS;
     loading := false; resp := JNull; error := None; runId := null;
     streaming := false; traces := []; esRef := None; activeTab := Trace;
     sources := []; pending := ∅; spawned := 0; requests := []; clock := 0 |}.

(** What the environment reports when a [fetch] settles: a rejection (a
    network failure) or a response, of which the source reads [status] and
    [ok]. *)
Inductive FetchOutcome : Type :=
  | Rejected (message : jsstring)
  | Response (status : N).

(** [Response.ok] *)
Definition ok (status : N) : bool := (200 <=? status) && (status <=? 299).

(** What [Response.json()] settles to. *)
Inductive JsonOutcome : Type :=
  | JsonRejected (message : jsstring)
  | JsonValue (data : json).

(** ** Agent roster *)

(** [[...prev]] *)
Definition spread_array (prev : list slot) : list slot :=
  (λ s, match s with Hole => Undefined | _ => s end) <$> prev.

Definition empty_object : AgentSpec :=
  {| name := None; system_prompt := None; model := None |}.

(** [{ ...x }] of an array element; spreading undefined gives [{}]. *)
Definition spread_slot (x : option slot) : AgentSpec :=
  match x with
  | Some (Agent a) => a
  | _ => empty_object
  end.

(** [{ ...a, ...patch }] *)
Definition merge (a : AgentSpec) (patch : AgentPatch) : AgentSpec :=
  {| name := default (name a) (patch_name patch);
     system_prompt := default (system_prompt a) (patch_system_prompt patch);
     model := default (model a) (patch_model patch) |}.

(** The updater [updateAgent] passes to [setAgents]:
    [prev => { const copy = [...prev]; copy[idx] = { ...copy[idx], ...patch }; return copy }].
    [idx] is an array index; past the end the assignment extends the array. *)
Definition updateAgent (idx : nat) (patch : AgentPatch) (prev : list slot) : list slot :=
  let copy := spread_array prev in
  let updated := Agent (merge (spread_slot (copy !! idx)) patch) in
  if bool_decide (idx < length copy)%nat
  then <[idx := updated]> copy
  else copy ++ replicate (idx - length copy)%nat Hole ++ [updated].

(** [prev => [...prev, { name: `agent_${prev.length + 1}`, system_prompt: '...' }]] *)
Definition addAgent (prev : list slot) : list slot :=
  spread_array prev ++
  [ Agent {| name := Some (js "agent_" ++ dec (N.of_nat (length prev + 1)));
             system_prompt := Some (js "You are a helpful specialist...");
             model := None |} ].

(** [prev => prev.filter((_, i) => i !== idx)]; [filter] skips holes. *)
Definition removeAgent (idx : nat) (prev : list slot) : list slot :=
  omap id (imap (λ i s, match s with
                        | Hole => None
                        | _ => if bool_decide (i = idx) then None else Some s
                        end) prev).

(** ** The platform *)

Record Platform : Type := {
  (** [import.meta.env.VITE_API_BASE], undefined when not set *)
  VITE_API_BASE : option jsstring;
  (** [new URL(rel, base).toString()]; [None] when the constructor throws *)
  URL_href : jsstring → jsstring → option jsstring;
  (** the message of the exception [new EventSource(url)] throws, [None]
      when the stream object is constructed *)
  EventSource_throws : jsstring → option jsstring;
  (** [JSON.parse(s)] *)
  JSON_parse : jsstring → completion json;
  (** truthiness and [ToString] of the number a literal denotes *)
  Number_truthy : jsstring → bool;
  Number_toString : jsstring → jsstring;
  (** the message of the TypeError raised by destructuring [null] *)
  TypeError_destructure : jsstring;
  (** the message of the TypeError raised when an object cannot be
      converted to a primitive value *)
  TypeError_toPrimitive : jsstring;
  (** the [k]-th reading of [Date.now()] taken by the component *)
  Date_now : nat → Z;
}.

Section App.
Context (P : Platform).

(** Truthiness of a value, for [a || b]. *)
Definition truthy (v : jsval) : bool :=
  match v with
  | None | Some JNull => false
  | Some (JBool b) => b
  | Some (JNum l) => Number_truthy P l
  | Some (JStr s) => negb (bool_decide (s = []))
  | Some (JArr _) | Some (JObj _) => true
  end.

(** [a || b] *)
Definition or_else (a b : jsval) : jsval := if truthy a then a else b.

Definition join_comma (parts : list jsstring) : jsstring :=
  match parts with
  | [] => []
  | p :: r => p ++ concat ((λ q, 44 :: q) <$> r)
  end.

(** [ToString] of a decoded value, as a template literal applies it; [None]
    when it throws a TypeError.  An array joins the strings of its elements
    with commas, null giving the empty string.  An object gives
    [[object Object]] through the inherited [toString], unless it has a
    member of that name: a decoded member is never a function, and the
    conversion then finds no primitive value and throws. *)
Fixpoint json_toString (v : json) : option jsstring :=
  match v with
  | JNull => Some (js "null")
  | JBool true => Some (js "true")
  | JBool false => Some (js "false")
  | JNum l => Some (Number_toString P l)
  | JStr s => Some s
  | JArr xs =>
      join_comma <$>
        (fix elements (l : list json) : option (list jsstring) :=
           match l with
           | [] => Some []
           | x :: r =>
               match (match x with JNull => Some [] | _ => json_toString x end),
                     elements r with
               | Some a, Some b => Some (a :: b)
               | _, _ => None
               end
           end) xs
  | JObj members =>
      match obj_get (js "toString") members with
      | Some _ => None
      | None => Some (js "[object Object]")
      end
  end.

(** [`${v}`] *)
Definition toString (v : jsval) : completion jsstring :=
  match v with
  | None => Normal (js "undefined")
  | Some j =>
      match json_toString j with
      | Some text => Normal text
      | None => Throw (TypeError_toPrimitive P)
      end
  end.

(** ** buildUrl and safeParse *)

(** [const apiBase = import.meta.env.VITE_API_BASE || '/'] *)
Definition apiBase : jsstring :=
  match VITE_API_BASE P with
  | Some s => str_or s (js "/")
  | None => js "/"
  end.

(** The body of [buildUrl], with the constant [apiBase] it closes over made
    an argument. *)
Definition buildUrl_from (base path : jsstring) : jsstring :=
  let normalized := strip_leading_slashes path in
  if bool_decide (base = []) || bool_decide (base = js "/")
  then js "/" ++ normalized
  else match URL_href P normalized base with
       | Some href => href
       | None => collapse_trailing_slashes base ++ normalized
       end.

Definition buildUrl (path : jsstring) : jsstring := buildUrl_from apiBase path.

(** [function safeParse(s) { try { return JSON.parse(s) } catch { return undefined } }] *)
Definition safeParse (s : jsstring) : completion jsval :=
  match JSON_parse P s with
  | Normal v => Normal (Some v)
  | Throw _ => Normal undefined
  end.

(** ** Synchronous segments

    A segment of the source between two suspension points: it reads and
    writes the world, and completes normally or throws.  What it has
    written stays written when it throws. *)
Definition M (A : Type) : Type := World → completion A * World.

#[global] Instance M_ret : MRet M := λ A a w, (Normal a, w).
#[global] Instance M_bind : MBind M := λ A B f m w,
  match m w with
  | (Normal a, w') => f a w'
  | (Throw e, w') => (Throw e, w')
  end.

Definition throw {A} (message : jsstring) : M A := λ w, (Throw message, w).

(** [try { body } catch (e) { handler(e.message) }] *)
Definition try_catch {A} (body : M A) (handler : jsstring → M A) : M A := λ w,
  match body w with
  | (Throw e, w') => handler e w'
  | r => r
  end.

Definition read : M World := λ w, (Normal w, w).
Definition modify (f : World → World) : M unit := λ w, (Normal (), f w).
Definition lift {A} (c : completion A) : M A := λ w, (c, w).

Definition setError v : M unit := modify (set_error v).
Definition setResp v : M unit := modify (set_resp v).
Definition setRunId v : M unit := modify (set_runId v).
Definition setLoading v : M unit := modify (set_loading v).
Definition setStreaming v : M unit := modify (set_streaming v).
Definition setActiveTab v : M unit := modify (set_activeTab v).
Definition set_esRef_current v : M unit := modify (set_esRef v).

(** [setTraces(prev => [...prev, { ...t, ts: Date.now() }])].  (The
    [queueMicrotask] that scrolls the trace panel touches the page only.) *)
Definition addTrace (t : TraceFields) : M unit :=
  modify (λ w, set_clock (S (clock w))
                 (set_traces (traces w ++ [ {| ts := Date_now P (clock w); fields := t |} ]) w)).

(** [setTraces([])] *)
Definition clearTraces : M unit := modify (set_traces []).

Definition close_source (s : EventSource) : EventSource :=
  {| es_url := es_url s; es_run_id := es_run_id s; closed := true |}.

(** [es.close()] *)
Definition close (es : nat) : M unit :=
  modify (λ w, set_sources (alter close_source es (sources w)) w).

(** [esRef.current?.close()] *)
Definition close_esRef_current : M unit :=
  w ← read;
  match esRef w with
  | Some es => close es
  | None => mret ()
  end.

(** [fetch(...)]: the request goes out; the caller suspends on its promise. *)
Definition fetch (r : Request) : M unit :=
  modify (λ w, set_requests (requests w ++ [r]) w).

(** [new EventSource(url)], with the listeners [runSwarm] attaches, which
    close over [run_id]. *)
Definition new_EventSource (url : jsstring) (run_id : jsval) : M nat := λ w,
  match EventSource_throws P url with
  | Some message => (Throw message, w)
  | None =>
      (Normal (length (sources w)),
       set_sources (sources w ++ [ {| es_url := url; es_run_id := run_id; closed := false |} ]) w)
  end.

(** ** fetchFinal

    [for (let i = 0; i < 120; i++) { const r = await fetch(url); ... }];
    a segment returns [Some k] when the function suspends as task [k] and
    [None] when it has returned. *)
Definition fetchFinal_loop (url : jsstring) (i : nat) : M (option Task) :=
  if bool_decide (i < 120)%nat
  then fetch (GET url);; mret (Some (AwaitPoll url i))
  else throw (js "Timed out waiting for result").

Definition fetchFinal (id : jsval) : M (option Task) :=
  id_text ← lift (toString id);
  let url := buildUrl (js "api/result/" ++ id_text) in
  fetchFinal_loop url O.

(** after [await fetch(url)] *)
Definition fetchFinal_response (url : jsstring) (i : nat) (o : FetchOutcome)
  : M (option Task) :=
  match o with
  | Rejected message => throw message
  | Response status =>
      if bool_decide (status = 202) then mret (Some (AwaitPollTimer url i))
      else if negb (ok status) then throw (js "HTTP " ++ dec status)
      else mret (Some AwaitPollBody)
  end.

(** after the timer: [continue], then [i++] and the loop test *)
Definition fetchFinal_timer (url : jsstring) (i : nat) : M (option Task) :=
  fetchFinal_loop url (S i).

(** after [await r.json()]: [setResp(data); return] *)
Definition fetchFinal_body (o : JsonOutcome) : M (option Task) :=
  match o with
  | JsonRejected message => throw message
  | JsonValue data => setResp data;; mret None
  end.

(** The rest of the [done] listener around a segment of [fetchFinal]:
    [try { await fetchFinal(run_id) } catch (err) { setError(err?.message || '...') }
     finally { setLoading(false); setStreaming(false) }]. *)
Definition done_listener (segment : M (option Task)) : M (option Task) :=
  r ← try_catch segment
        (λ message,
           setError (Some (str_or message (js "Failed to fetch final result")));;
           mret None);
  match r with
  | Some k => mret (Some k)
  | None => setLoading false;; setStreaming false;; mret None
  end.

(** ** The stream listeners *)

Definition no_fields (t : TraceType) : TraceFields :=
  {| type := t; level := None; message := None; run_id := None; ev_task := None;
     status := None; has_output := None; output_preview := None;
     transcript_preview := None |}.

Definition str (s : string) : jsval := Some (JStr (js s)).

(** [safeParse(e.data)]; an event without [data] passes undefined, which
    JSON.parse reads as the text [undefined]. *)
Definition parse_data (data : option jsstring) : M jsval :=
  lift (safeParse (default (js "undefined") data)).

Definition on_ready (run_id : jsval) : M unit :=
  addTrace {| type := Ready; level := None; message := str "stream ready";
              run_id := run_id; ev_task := None; status := None; has_output := None;
              output_preview := None; transcript_preview := None |}.

Definition on_start (run_id : jsval) (data : option jsstring) : M unit :=
  d ← parse_data data;
  addTrace {| type := Start; level := None; message := None; run_id := run_id;
              ev_task := get d "task"; status := None; has_output := None;
              output_preview := None; transcript_preview := None |}.

Definition on_log (data : option jsstring) : M unit :=
  d ← parse_data data;
  addTrace {| type := Log; level := or_else (get d "level") (str "LOG");
              message := get d "message"; run_id := None; ev_task := None;
              status := None; has_output := None; output_preview := None;
              transcript_preview := None |}.

Definition on_error (data : option jsstring) : M unit :=
  d ← parse_data data;
  addTrace {| type := Error; level := None;
              message := or_else (get d "error") (str "server error");
              run_id := None; ev_task := None; status := None; has_output := None;
              output_preview := None; transcript_preview := None |}.

(** [es.onerror] *)
Definition onerror : M unit :=
  addTrace {| type := ClientError; level := None;
              message := str "stream connection error"; run_id := None;
              ev_task := None; status := None; has_output := None;
              output_preview := None; transcript_preview := None |}.

Definition with_summary (t : TraceType) (d : jsval) : TraceFields :=
  {| type := t; level := None; message := None; run_id := None; ev_task := None;
     status := get d "status"; has_output := get d "has_output";
     output_preview := get d "output_preview";
     transcript_preview := get d "transcript_preview" |}.

Definition on_summary (data : option jsstring) : M unit :=
  d ← parse_data data;
  addTrace (with_summary Summary d).

Definition on_done (es : nat) (run_id : jsval) (data : option jsstring)
  : M (option Task) :=
  d ← parse_data data;
  addTrace (with_summary Done d);;
  close es;;
  set_esRef_current None;;
  done_listener (fetchFinal run_id).

(** An event of type [name] dispatched at the EventSource [es]: the
    listeners registered for that type run in registration order.  An event
    of type [error], whether sent by the server or raised by the
    connection, reaches the [error] listener and then [onerror]. *)
Definition dispatch (es : nat) (run_id : jsval) (name : jsstring)
    (data : option jsstring) : M (option Task) :=
  if bool_decide (name = js "ready") then on_ready run_id;; mret None
  else if bool_decide (name = js "start") then on_start run_id data;; mret None
  else if bool_decide (name = js "log") then on_log data;; mret None
  else if bool_decide (name = js "error") then on_error data;; onerror;; mret None
  else if bool_decide (name = js "done") then on_done es run_id data
  else if bool_decide (name = js "summary") then on_summary data;; mret None
  else mret None.

(** ** runSwarm *)

(** [catch (e) { setError(e?.message || 'Request failed'); setLoading(false);
    setStreaming(false); esRef.current?.close(); esRef.current = null }] *)
Definition runSwarm_catch (message : jsstring) : M (option Task) :=
  setError (Some (str_or message (js "Request failed")));;
  setLoading false;;
  setStreaming false;;
  close_esRef_current;;
  set_esRef_current None;;
  mret None.

(** [!task || !task.trim()] *)
Definition blank (task : jsstring) : bool :=
  bool_decide (task = []) || bool_decide (trim task = []).

(** [runSwarm] up to [await fetch(...)] *)
Definition runSwarm : M (option Task) :=
  w ← read;
  if blank (task w)
  then setError (Some (js "Please enter a task before running the swarm."));; mret None
  else
    setError None;; setResp JNull;; setRunId null;; clearTraces;;
    close_esRef_current;; set_esRef_current None;;
    setActiveTab Trace;; setLoading true;; setStreaming true;;
    try_catch
      (let payload := {| payload_task := trim (task w); payload_agents := agents w;
                         payload_settings := settings w |} in
       fetch (POST (buildUrl (js "api/run/start")) payload);;
       mret (Some AwaitStart))
      runSwarm_catch.

(** after [await fetch(...)]: [if (!startRes.ok) throw new Error(`HTTP ${startRes.status}`)] *)
Definition runSwarm_response (o : FetchOutcome) : M (option Task) :=
  try_catch
    (match o with
     | Rejected message => throw message
     | Response status =>
         if negb (ok status) then throw (js "HTTP " ++ dec status)
         else mret (Some AwaitStartBody)
     end)
    runSwarm_catch.

(** [const { run_id } = ...]: destructuring null throws, any other decoded
    value yields its [run_id] property or undefined. *)
Definition destructure_run_id (v : json) : M jsval :=
  match v with
  | JNull => throw (TypeError_destructure P)
  | _ => mret (get (Some v) "run_id")
  end.

(** after [await startRes.json()] *)
Definition runSwarm_body (o : JsonOutcome) : M (option Task) :=
  try_catch
    (match o with
     | JsonRejected message => throw message
     | JsonValue v =>
         run_id ← destructure_run_id v;
         setRunId run_id;;
         id_text ← lift (toString run_id);
         es ← new_EventSource (buildUrl (js "api/stream/" ++ id_text)) run_id;
         set_esRef_current (Some es);;
         mret None
     end)
    runSwarm_catch.

(** ** The component as a transition system *)

(** The cleanup of the effect, run when the component is unmounted:
    [useEffect(() => () => { esRef.current?.close(); esRef.current = null }, [])]. *)
Definition cleanup : M unit := close_esRef_current;; set_esRef_current None.

Inductive Event : Type :=
  (** the task textarea: [onChange={(e) => setTask(e.target.value)}] *)
  | Change_task (value : jsstring)
  | Update_agent (idx : nat) (patch : AgentPatch)
  | Add_agent
  | Remove_agent (idx : nat)
  | Change_settings (value : SwarmSettings)
  | Select_tab (t : Tab)
  (** a click on [<button onClick={clearTraces}>Clear</button>], which is
      never disabled *)
  | Click_Clear
  (** a click on [<Button onClick={runSwarm} disabled={loading || streaming}>] *)
  | Click_Run
  (** a call of [runSwarm] itself, whatever the button shows; the page has
      no such event, the button being the only caller of [runSwarm] *)
  | Call_runSwarm
  (** the [fetch] awaited by task [h] settles *)
  | Fetch_settled (h : nat) (o : FetchOutcome)
  (** the [json()] awaited by task [h] settles *)
  | Json_settled (h : nat) (o : JsonOutcome)
  (** the timer awaited by task [h] fires *)
  | Timer_fired (h : nat)
  (** an event of type [name] arrives on the stream [es] *)
  | Stream_event (es : nat) (name : jsstring) (data : option jsstring)
  (** the cleanup of [useEffect(() => () => {...}, [])] *)
  | Unmount.

(** Run a segment of the async function with handle [h] and record where it
    suspends; an exception nobody caught ends the function as well. *)
Definition resume (h : nat) (segment : M (option Task)) (w : World) : World :=
  match segment w with
  | (Normal (Some k), w') => set_pending (<[h := k]> (pending w')) w'
  | (_, w') => set_pending (delete h (pending w')) w'
  end.

(** Call an async function or a listener: when it suspends, the suspended
    function gets a fresh handle. *)
Definition spawn (segment : M (option Task)) (w : World) : World :=
  match segment w with
  | (Normal (Some k), w') =>
      set_spawned (S (spawned w')) (set_pending (<[spawned w' := k]> (pending w')) w')
  | (_, w') => w'
  end.

(** [disabled={loading || streaming}] *)
Definition Run_disabled (w : World) : bool := loading w || streaming w.

(** One event; [None] when the event cannot occur in this state (no such
    suspended function, a closed stream, a disabled button). *)
Definition step (w : World) (e : Event) : option World :=
  match e with
  | Change_task value => Some (set_task value w)
  | Update_agent idx patch => Some (set_agents (updateAgent idx patch (agents w)) w)
  | Add_agent => Some (set_agents (addAgent (agents w)) w)
  | Remove_agent idx => Some (set_agents (removeAgent idx (agents w)) w)
  | Change_settings value => Some (set_settings value w)
  | Select_tab t => Some (set_activeTab t w)
  | Click_Clear => Some (snd (clearTraces w))
  | Click_Run => if Run_disabled w then None else Some (spawn runSwarm w)
  | Call_runSwarm => Some (spawn runSwarm w)
  | Fetch_settled h o =>
      match pending w !! h with
      | Some AwaitStart => Some (resume h (runSwarm_response o) w)
      | Some (AwaitPoll url i) =>
          Some (resume h (done_listener (fetchFinal_response url i o)) w)
      | _ => None
      end
  | Json_settled h o =>
      match pending w !! h with
      | Some AwaitStartBody => Some (resume h (runSwarm_body o) w)
      | Some AwaitPollBody => Some (resume h (done_listener (fetchFinal_body o)) w)
      | _ => None
      end
  | Timer_fired h =>
      match pending w !! h with
      | Some (AwaitPollTimer url i) =>
          Some (resume h (done_listener (fetchFinal_timer url i)) w)
      | _ => None
      end
  | Stream_event es name data =>
      match sources w !! es with
      | Some s =>
          if closed s then None
          else Some (spawn (dispatch es (es_run_id s) name data) w)
      | None => None
      end
  | Unmount => Some (snd (cleanup w))
  end.

(** The events that begin a run. *)
Definition starts_run (e : Event) : bool :=
  match e with
  | Click_Run | Call_runSwarm => true
  | _ => false
  end.

(** The events whose handler calls [clearTraces]: a click on Clear, and
    [runSwarm] when it starts a run. *)
Definition empties_trace (e : Event) : bool :=
  match e with
  | Click_Clear => true
  | _ => starts_run e
  end.

(** A run of the component over a list of events. *)
Fixpoint run (w : World) (events : list Event) : option World :=
  match events with
  | [] => Some w
  | e :: rest =>
      match step w e with
      | Some w' => run w' rest
      | None => None
      end
  end.

(** ** Phases

    What holds of the component between two events when runs are started
    through the Run button: it is quiet (nothing suspended, every stream
    closed), or one async function is suspended ([runSwarm], or the [done]
    listener inside [fetchFinal]) while every stream is closed, or the
    stream opened last is open and nothing is suspended.  In the last two
    the running flags are set. *)
Definition all_closed (l : list EventSource) : Prop :=
  Forall (λ s, closed s = true) l.

Inductive phase (w : World) : Prop :=
  | Quiet :
      pending w = ∅ → all_closed (sources w) → phase w
  | Suspended h k :
      pending w = {[h := k]} → (h < spawned w)%nat → all_closed (sources w) →
      loading w = true → streaming w = true → phase w
  | Streaming l s :
      pending w = ∅ → sources w = l ++ [s] → all_closed l → closed s = false →
      loading w = true → streaming w = true → phase w.

(** The states the component reaches when runs are started through the Run
    button only. *)
Inductive reachable : World → Prop :=
  | reachable_initial : reachable initial
  | reachable_step w e w' :
      reachable w → e ≠ Call_runSwarm → step w e = Some w' → reachable w'.

(** The [run_id] a stream closes over has a string form. *)
Definition has_text (s : EventSource) : Prop :=
  ∃ id_text, toString (es_run_id s) = Normal id_text.

(** The trace entries [addTrace] stores for [fs] when the clock has been
    read [k] times before: one further reading each, in order. *)
Definition stamp (k : nat) (fs : list TraceFields) : list TraceEvent :=
  imap (λ i f, {| ts := Date_now P (i + k); fields := f |}) fs.

(** The world after the synchronous part of the [done] listener: the trace
    entry, the closed stream, the cleared reference. *)
Definition after_done (w : World) (es : nat) (data : option jsstring) : World :=
  set_esRef None
    (set_sources (alter close_source es (sources w))
       (snd (addTrace (with_summary Done
               (match safeParse (default (js "undefined") data) with
                | Normal d => d
                | Throw _ => None
                end)) w))).

(** The URL [fetchFinal] polls for a run, from the text of its [id], and
    the URL [runSwarm] streams from. *)
Definition result_url (id_text : jsstring) : jsstring :=
  buildUrl (js "api/result/" ++ id_text).

Definition stream_url (id_text : jsstring) : jsstring :=
  buildUrl (js "api/stream/" ++ id_text).

End App.

(** ** More of the component: patches in sequence, what is tracked of a
    run, and the token summary of the transcript *)

(** [{ ...p1, ...p2 }] of two patches: the keys of both, the later value
    where both have the key. *)
Definition patch_then (p1 p2 : AgentPatch) : AgentPatch :=
  {| patch_name := match patch_name p2 with Some v => Some v | None => patch_name p1 end;
     patch_system_prompt :=
       match patch_system_prompt p2 with Some v => Some v | None => patch_system_prompt p1 end;
     patch_model := match patch_model p2 with Some v => Some v | None => patch_model p1 end |}.

(** An array element that holds an agent object. *)
Definition is_agent (s : slot) : bool :=
  match s with Agent _ => true | _ => false end.

(** The requests the component may issue: the submission, and polls of a
    result URL. *)
Definition known_endpoint (P : Platform) (r : Request) : Prop :=
  match r with
  | POST url _ => url = buildUrl P (js "api/run/start")
  | GET url => ∃ id_text, url = result_url P id_text
  end.

(** The poll tasks, with the number of requests their loop has issued. *)
Definition poll_attempts (k : Task) : option nat :=
  match k with
  | AwaitPoll _ i | AwaitPollTimer _ i => Some (S i)
  | _ => None
  end.

Definition is_poll (k : Task) : bool :=
  match k with
  | AwaitPoll _ _ | AwaitPollTimer _ _ | AwaitPollBody => true
  | _ => false
  end.

(** Every suspended poll is within the budget of its loop. *)
Definition within_budget (w : World) : Prop :=
  map_Forall (λ _ k, ∀ n, poll_attempts k = Some n → (n ≤ 120)%nat) (pending w).

(** [esRef.current] holds every stream that is open. *)
Definition tracked (w : World) : Prop :=
  ∀ es s, sources w !! es = Some s → closed s = false → esRef w = Some es.


(** The trace entries the listeners of an event type leave, by type. *)
Definition entry_types (name : jsstring) : list TraceType :=
  if bool_decide (name = js "ready") then [Ready]
  else if bool_decide (name = js "start") then [Start]
  else if bool_decide (name = js "log") then [Log]
  else if bool_decide (name = js "error") then [Error; ClientError]
  else if bool_decide (name = js "done") then [Done]
  else if bool_decide (name = js "summary") then [Summary]
  else [].

(** A log entry has a level and an error entry a message. *)
Definition labelled (P : Platform) (t : TraceEvent) : Prop :=
  (type (fields t) = Log → truthy P (level (fields t)) = true)
  ∧ (type (fields t) = Error → truthy P (message (fields t)) = true)
  ∧ (type (fields t) = ClientError → truthy P (message (fields t)) = true).

(** What the component shows of a run: nothing while it is marked as
    loading; afterwards a result, or a failure, or the request to enter a
    task next to whatever was there. *)
Definition shown (w : World) : Prop :=
  (loading w = true → error w = None ∧ resp w = JNull)
  ∧ (resp w = JNull ∨ error w = None
     ∨ error w = Some (js "Please enter a task before running the swarm.")).

(** The URL a suspended poll asks. *)
Definition poll_url (k : Task) : option jsstring :=
  match k with
  | AwaitPoll url _ | AwaitPollTimer url _ => Some url
  | _ => None
  end.

(** The requests issued and the polls suspended name known endpoints. *)
Definition on_the_wire (P : Platform) (w : World) : Prop :=
  Forall (known_endpoint P) (requests w)
  ∧ map_Forall (λ _ k, ∀ url, poll_url k = Some url →
                        ∃ id_text, url = result_url P id_text) (pending w).

(** A stream is opened at the stream URL of the text of its [run_id]. *)
Definition named (P : Platform) (s : EventSource) : Prop :=
  ∃ id_text, toString P (es_run_id s) = Normal id_text
             ∧ es_url s = stream_url P id_text.

(** The suspended function an event resumes. *)
Definition resumes (e : Event) : option nat :=
  match e with
  | Fetch_settled h _ | Json_settled h _ | Timer_fired h => Some h
  | _ => None
  end.

(** The streams that are open. *)
Definition open_sources (w : World) : list EventSource :=
  filter (λ s, closed s = false) (sources w).

Section TokenSummary.
Context (P : Platform).
(** [`${a + b}`] for two decoded values, the text of their sum or
    concatenation as the engine computes it. *)
Context (plus_text : json → json → completion jsstring).

(** [v == null] *)
Definition nullish (v : jsval) : bool :=
  match v with
  | None | Some JNull => true
  | _ => false
  end.

(** [a ?? b] *)
Definition coalesce (a b : jsval) : jsval := if nullish a then b else a.

(** [function tokenSummary(usage)]; [None] is null.  At most one part is
    pushed, so [parts.join(' · ')] is that part. *)
Definition tokenSummary (usage : jsval) : completion (option jsstring) :=
  if negb (truthy P usage) then Normal None
  else
    let it := coalesce (coalesce (get usage "inputTokens") (get usage "input_tokens"))
                (get usage "prompt_tokens") in
    let ot := coalesce (coalesce (get usage "outputTokens") (get usage "output_tokens"))
                (get usage "completion_tokens") in
    let given := coalesce (get usage "totalTokens") (get usage "total_tokens") in
    (* the text of [tt] when [tt != null] *)
    let total :=
      if negb (nullish given) then Some (toString P given)
      else match it, ot with
           | Some a, Some b =>
               if truthy P it && truthy P ot then Some (plus_text a b) else None
           | _, _ => None
           end in
    match total with
    | Some (Normal text) => Normal (Some (js "tok " ++ text))
    | Some (Throw message) => Throw message
    | None =>
        if negb (nullish it) || negb (nullish ot) then
          match toString P (coalesce it (str "?")), toString P (coalesce ot (str "?")) with
          | Normal i, Normal o => Normal (Some (js "in " ++ i ++ js "/out " ++ o))
          | Throw message, _ => Throw message
          | _, Throw message => Throw message
          end
        else Normal None
    end.

End TokenSummary.

(** ** Rendering

    After a handler has run, React calls [App] again with the state the
    handler left (the updates of one handler are batched, as React 18 does
    for event handlers and asynchronous code alike).  Nothing in the
    component catches what this call throws: no error boundary surrounds
    [App].  When the call throws, or when it returns a child that React
    cannot render, React unmounts the tree, and the cleanup of the effect
    runs.  The definitions below follow the JSX of [App] and keep of it what
    can throw. *)

(** What has become of the component after an event. *)
Inductive Outcome : Type :=
  | Rendered (w : World)
  | Unmounted (w : World).

Section Render.
Context (P : Platform).
Context (plus_text : json → json → completion jsstring).

(** Whether React renders a decoded value as a child: a string or a number
    is text, null and the booleans render nothing, an array renders its
    elements, and an object is refused. *)
Fixpoint valid_child (v : json) : bool :=
  match v with
  | JArr xs =>
      (fix elements (l : list json) : bool :=
         match l with
         | [] => true
         | x :: r => valid_child x && elements r
         end) xs
  | JObj _ => false
  | _ => true
  end.

(** [{v}], and [{v && <span>{v}</span>}]: the value is a child either way,
    by itself when it is falsy. *)
Definition child (v : jsval) : bool :=
  match v with
  | Some j => valid_child j
  | None => true
  end.

(** [{v.slice(0, n)}]: a string gives a string and an array its first [n]
    elements; no other decoded value has a method [slice], and calling what
    is not a function throws. *)
Definition sliced (n : nat) (v : json) : bool :=
  match v with
  | JStr _ => true
  | JArr xs => forallb valid_child (take n xs)
  | _ => false
  end.

(** [{v && <...>{v.slice(0, n)}</...>}] *)
Definition sliced_if_truthy (n : nat) (v : jsval) : bool :=
  match v with
  | Some j => if truthy P v then sliced n j else true
  | None => true
  end.

(** [v?.length ? v.map(row) : ...]: [length] is the length of a string or of
    an array, or a member of an object; [map] is a method of arrays only. *)
Definition mapped (row : json → bool) (v : jsval) : bool :=
  match v with
  | None | Some JNull | Some (JBool _) | Some (JNum _) => true
  | Some (JStr s) => bool_decide (s = [])
  | Some (JArr xs) => forallb row xs
  | Some (JObj members) => negb (truthy P (obj_get (js "length") members))
  end.

(** [p => <div><span>{p.agent}</span>: {p.preview}</div>]; reading a
    property of null throws. *)
Definition preview_row (p : json) : bool :=
  match p with
  | JNull => false
  | _ => child (get (Some p) "agent") && child (get (Some p) "preview")
  end.

(** An entry of the trace panel. *)
Definition render_trace (t : TraceFields) : bool :=
  child (level t) && child (message t) && child (status t)
  && sliced_if_truthy 240 (output_preview t)
  && mapped preview_row (transcript_preview t).

(** A turn of the transcript panel, with its token summary. *)
Definition render_turn (t : json) : bool :=
  match t with
  | JNull => false
  | _ =>
      child (get (Some t) "agent") && child (get (Some t) "role")
      && child (get (Some t) "stop_reason")
      && match tokenSummary P plus_text (get (Some t) "usage") with
         | Normal _ => true
         | Throw _ => false
         end
      && child (get (Some t) "text")
  end.

(** The status card: [{!!resp && ...{resp.status}...{resp.node_history?.length
    ? resp.node_history.map(id => <span>{id}</span>) : ...}...}]. *)
Definition render_status (resp : json) : bool :=
  if truthy P (Some resp)
  then child (get (Some resp) "status")
       && mapped valid_child (get (Some resp) "node_history")
  else true.

(** Whether [App] renders in a state.  [useMemo(() => agents.map(a => a.name))]
    and the agent cards read a property of every element, which throws on
    an undefined element ([map] skips holes); the header slices a truthy
    [runId]; of the three panels only the active one is built; the Output
    panel and the settings cannot throw. *)
Definition renders (w : World) : bool :=
  forallb (λ s, match s with Undefined => false | _ => true end) (agents w)
  && sliced_if_truthy 8 (runId w)
  && match activeTab w with
     | Trace => forallb (λ t, render_trace (fields t)) (traces w)
     | Transcript => mapped render_turn (get (Some (resp w)) "transcript")
     | Output => true
     end
  && render_status (resp w).

(** Whether entries added to the trace render: the trace panel is built
    only while its tab is the active one. *)
Definition render_entries (tab : Tab) (fs : list TraceFields) : bool :=
  match tab with
  | Trace => forallb render_trace fs
  | _ => true
  end.

(** One event as the mounted component takes it: the handler, then the
    render of the state it left.  When the render throws the component is
    unmounted, and the cleanup closes the stream held in [esRef]. *)
Definition deliver (w : World) (e : Event) : option Outcome :=
  match step P w e with
  | Some w' =>
      Some (match e with
            | Unmount => Unmounted w'
            | _ => if renders w' then Rendered w' else Unmounted (snd (cleanup w'))
            end)
  | None => None
  end.

(** The mounted component over a list of events; [None] when an event
    cannot occur or the component is unmounted on the way. *)
Fixpoint play (w : World) (events : list Event) : option World :=
  match events with
  | [] => Some w
  | e :: rest =>
      match deliver w e with
      | Some (Rendered w') => play w' rest
      | _ => None
      end
  end.

End Render.

(** ** A host to run the component on

    A decoder for the JSON grammar (ECMA-404), used as [JSON.parse] of the
    sample host [browser] below.  Number literals are checked against the
    grammar and kept as written. *)

Definition json_whitespace (c : N) : bool := bool_decide (c ∈ [32; 9; 10; 13]).

Fixpoint skip_whitespace (s : jsstring) : jsstring :=
  match s with
  | c :: r => if json_whitespace c then skip_whitespace r else s
  | [] => []
  end.

Definition is_digit (c : N) : bool := (48 <=? c) && (c <=? 57).

Definition hex_digit (c : N) : option N :=
  if is_digit c then Some (c - 48)
  else if (97 <=? c) && (c <=? 102) then Some (c - 87)
  else if (65 <=? c) && (c <=? 70) then Some (c - 55)
  else None.

(** The character an escape [\e] stands for. *)
Definition unescape (e : N) : option N :=
  if bool_decide (e ∈ [34; 92; 47]) then Some e
  else if bool_decide (e = 98) then Some 8
  else if bool_decide (e = 102) then Some 12
  else if bool_decide (e = 110) then Some 10
  else if bool_decide (e = 114) then Some 13
  else if bool_decide (e = 116) then Some 9
  else None.

(** The characters of a string literal after its opening quote. *)
Fixpoint decode_chars (s : jsstring) (seen : jsstring) : option (jsstring * jsstring) :=
  match s with
  | [] => None
  | c :: r =>
      if bool_decide (c = 34) then Some (reverse seen, r)
      else if bool_decide (c = 92) then
        match r with
        | [] => None
        | e :: r1 =>
            if bool_decide (e = 117) then
              match r1 with
              | a :: b :: c' :: d :: r2 =>
                  match hex_digit a, hex_digit b, hex_digit c', hex_digit d with
                  | Some x3, Some x2, Some x1, Some x0 =>
                      decode_chars r2 (((x3 * 16 + x2) * 16 + x1) * 16 + x0 :: seen)
                  | _, _, _, _ => None
                  end
              | _ => None
              end
            else
              match unescape e with
              | Some x => decode_chars r1 (x :: seen)
              | None => None
              end
        end
      else if c <? 32 then None
      else decode_chars r (c :: seen)
  end.

Fixpoint digits (s : jsstring) : jsstring * jsstring :=
  match s with
  | c :: r => if is_digit c then let '(ds, rest) := digits r in (c :: ds, rest) else ([], s)
  | [] => ([], [])
  end.

(** A number literal: an optional minus sign; a single 0 or a non-zero
    digit followed by digits; optionally a point and one or more digits;
    optionally e or E, an optional sign and one or more digits. *)
Definition decode_number (s : jsstring) : option (jsstring * jsstring) :=
  let '(sign, s1) := match s with 45 :: r => ([45], r) | _ => ([], s) end in
  int ← match s1 with
        | c :: r =>
            if bool_decide (c = 48) then Some ([48], r)
            else if is_digit c then let '(ds, rest) := digits r in Some (c :: ds, rest)
            else None
        | [] => None
        end;
  frac ← match int.2 with
         | 46 :: r =>
             let '(ds, rest) := digits r in
             if bool_decide (ds = []) then None else Some (46 :: ds, rest)
         | rest => Some ([], rest)
         end;
  exp ← match frac.2 with
        | e :: r =>
            if bool_decide (e ∈ [101; 69]) then
              let '(esign, r1) :=
                match r with
                | c :: r' => if bool_decide (c ∈ [43; 45]) then ([c], r') else ([], r)
                | [] => ([], r)
                end in
              let '(ds, rest) := digits r1 in
              if bool_decide (ds = []) then None else Some (e :: esign ++ ds, rest)
            else Some ([], frac.2)
        | [] => Some ([], [])
        end;
  Some (sign ++ int.1 ++ frac.1 ++ exp.1, exp.2).

Fixpoint decode_value (fuel : nat) (s : jsstring) : option (json * jsstring) :=
  match fuel with
  | O => None
  | S n =>
      match skip_whitespace s with
      | [] => None
      | 123 :: r =>
          match skip_whitespace r with
          | 125 :: rest => Some (JObj [], rest)
          | _ => decode_members n r []
          end
      | 91 :: r =>
          match skip_whitespace r with
          | 93 :: rest => Some (JArr [], rest)
          | _ => decode_elements n r []
          end
      | 34 :: r => '(x, rest) ← decode_chars r []; Some (JStr x, rest)
      | 110 :: 117 :: 108 :: 108 :: rest => Some (JNull, rest)
      | 116 :: 114 :: 117 :: 101 :: rest => Some (JBool true, rest)
      | 102 :: 97 :: 108 :: 115 :: 101 :: rest => Some (JBool false, rest)
      | number => '(l, rest) ← decode_number number; Some (JNum l, rest)
      end
  end
with decode_elements (fuel : nat) (s : jsstring) (seen : list json)
  : option (json * jsstring) :=
  match fuel with
  | O => None
  | S n =>
      '(v, r) ← decode_value n s;
      match skip_whitespace r with
      | 44 :: rest => decode_elements n rest (v :: seen)
      | 93 :: rest => Some (JArr (reverse (v :: seen)), rest)
      | _ => None
      end
  end
with decode_members (fuel : nat) (s : jsstring) (seen : list (jsstring * json))
  : option (json * jsstring) :=
  match fuel with
  | O => None
  | S n =>
      match skip_whitespace s with
      | 34 :: r =>
          '(k, r1) ← decode_chars r [];
          match skip_whitespace r1 with
          | 58 :: r2 =>
              '(v, r3) ← decode_value n r2;
              match skip_whitespace r3 with
              | 44 :: rest => decode_members n rest ((k, v) :: seen)
              | 125 :: rest => Some (JObj (reverse ((k, v) :: seen)), rest)
              | _ => None
              end
          | _ => None
          end
      | _ => None
      end
  end.

Definition decode (s : jsstring) : completion json :=
  match decode_value (S (2 * length s)) s with
  | Some (v, rest) =>
      match skip_whitespace rest with
      | [] => Normal v
      | _ => Throw (js "Unexpected non-whitespace character after JSON")
      end
  | None => Throw (js "Unexpected token in JSON")
  end.

(** The application served from the origin of its backend, in a browser
    with the V8 engine: VITE_API_BASE is not set, so [buildUrl] never
    reaches the URL constructor, and every URL it returns is a path the
    EventSource constructor accepts.  This host is a sample and partial in
    two places.  Its URL constructor is only right for the bases that are
    no absolute URL, such as [/backend//], which every browser rejects; the
    absolute bases a browser accepts are not part of it.  Its numbers are
    only right for the literals of integers in canonical form (no fraction,
    no exponent, no sign before 0): such a literal is falsy when it has no
    digit other than 0, and prints as written. *)
Definition browser : Platform :=
  {| VITE_API_BASE := None;
     URL_href := λ _ _, None;
     EventSource_throws := λ _, None;
     JSON_parse := decode;
     Number_truthy := λ l, bool_decide (Exists (λ c, 49 ≤ c ≤ 57) l);
     Number_toString := λ l, l;
     TypeError_destructure :=
       js "Cannot destructure property 'run_id' of '(intermediate value)' as it is null.";
     TypeError_toPrimitive := js "Cannot convert object to primitive value";
     Date_now := λ k, (1700000000000 + Z.of_nat k)%Z |}.

(** The code units of a JSON text written with apostrophes in place of
    quotation marks. *)
Definition json_text (s : string) : jsstring :=
  (λ c, if bool_decide (c = 39) then 34 else c) <$> js s.


(** ** Sample runs *)

Local Open Scope nat_scope.

(** The operator types a task and clicks Run; the backend accepts the run
    and names it [r1]; the stream is open. *)
Definition submit_r1 : list Event :=
  [ Change_task (js "Summarize X");
    Click_Run;
    Fetch_settled 0 (Response 200);
    Json_settled 0 (JsonValue (JObj [(js "run_id", JStr (js "r1"))])) ].

Definition streaming_r1 : World := default initial (run browser initial submit_r1).

Definition stream_r1 : EventSource :=
  {| es_url := js "/api/stream/r1"; es_run_id := Some (JStr (js "r1")); closed := false |}.

Definition done_r1 : Event :=
  Stream_event 0 (js "done") (Some (json_text "{'status': 'COMPLETED', 'has_output': true}")).

(** ... then [done] has arrived and the first poll is in flight. *)
Definition polling_r1 : World :=
  default initial (run browser initial (submit_r1 ++ [done_r1])).

(** ... or the body of the submit response is awaited. *)
Definition submitted : World :=
  default initial
    (run browser initial
       [ Change_task (js "Summarize X"); Click_Run; Fetch_settled 0 (Response 200) ]).

Definition result_r1 : json :=
  JObj [ (js "status", JStr (js "COMPLETED"));
         (js "node_history", JArr [JStr (js "researcher"); JStr (js "architect")]) ].

Definition progress_r1 : list Event :=
  [ Stream_event 0 (js "ready") None;
    Stream_event 0 (js "start") (Some (json_text "{'task': 'Summarize X'}"));
    Stream_event 0 (js "log") (Some (json_text "{'level': 'INFO', 'message': 'handing off'}"));
    Stream_event 0 (js "log") (Some (js "not json"));
    Stream_event 0 (js "error") None ].

Definition after_progress_r1 : World :=
  default initial (run browser streaming_r1 progress_r1).

(** ... or the submission itself is in flight. *)
Definition submitting : World :=
  default initial
    (run browser initial [ Change_task (js " Summarize X "); Click_Run ]).

(** A patch that renames an agent, and one that sets its model. *)
Definition rename_writer : AgentPatch :=
  {| patch_name := Some (Some (js "writer")); patch_system_prompt := None;
     patch_model := None |}.

Definition use_haiku : AgentPatch :=
  {| patch_name := None; patch_system_prompt := None;
     patch_model := Some (Some (js "haiku")) |}.

(** Usage objects as backends report them. *)
Definition usage_zero_input : jsval :=
  Some (JObj [ (js "input_tokens", JNum (js "0")); (js "output_tokens", JNum (js "5")) ]).

Definition usage_total : jsval :=
  Some (JObj [ (js "prompt_tokens", JNum (js "40"));
               (js "total_tokens", JNum (js "42")) ]).

(** The number a literal of digits denotes. *)
Definition integer_value (l : jsstring) : option N :=
  if bool_decide (l = []) then None
  else foldl (λ acc c, n ← acc;
                       if is_digit c then Some (10 * n + (c - 48))%N else None)
         (Some 0%N) l.

(** [`${a + b}`] on the sample host, for the operands the sample usage
    objects hold: two integers are added and two strings concatenated.
    Other operands are left out here and reported by an exception. *)
Definition plus_text_sample (a b : json) : completion jsstring :=
  match a, b with
  | JNum x, JNum y =>
      match integer_value x, integer_value y with
      | Some m, Some n => Normal (dec (m + n)%N)
      | _, _ => Throw (js "operands outside the sample")
      end
  | JStr s, JStr t => Normal (s ++ t)
  | _, _ => Throw (js "operands outside the sample")
  end.

Definition usage_counts : jsval :=
  Some (JObj [ (js "input_tokens", JNum (js "12")); (js "output_tokens", JNum (js "30")) ]).




(** ... and the first poll of [r1] was answered with 202: the timer runs. *)
Definition waiting_r1 : World :=
  default initial (step browser polling_r1 (Fetch_settled 1 (Response 202))).

(** * Properties *)

Local Close Scope N_scope.
Local Open Scope nat_scope.

#[local] Arguments js : simpl never.
#[local] Arguments dec : simpl never.

Section Properties.
Context (P : Platform).
(** [`${a + b}`], which [tokenSummary] leaves to the engine. *)
Context (plus_text : json → json → completion jsstring).

(** ** Strings *)

Lemma trimStart_whitespace (s : jsstring) :
  Forall (λ c, is_whitespace c = true) s → trimStart s = [].
Proof.
  induction 1 as [|c r Hc _ IH]; simpl; [done|]. by rewrite Hc.
Qed.

Lemma trim_whitespace (s : jsstring) :
  Forall (λ c, is_whitespace c = true) s → trim s = [].
Proof.
  intros H. unfold trim. by rewrite (trimStart_whitespace s H).
Qed.

Lemma blank_whitespace (s : jsstring) :
  Forall (λ c, is_whitespace c = true) s → blank s = true.
Proof.
  intros H. unfold blank. rewrite (trim_whitespace s H).
  rewrite (bool_decide_eq_true_2 ([] = [])) by done. apply orb_true_r.
Qed.

Lemma strip_leading_slashes_split (path : jsstring) :
  ∃ k, path = replicate k slash ++ strip_leading_slashes path.
Proof.
  induction path as [|c r [k IH]]; simpl.
  - by exists 0.
  - case_bool_decide as Hc.
    + exists (S k). simpl. by rewrite Hc, <- IH.
    + by exists 0.
Qed.

Lemma strip_leading_slashes_head (path : jsstring) :
  head (strip_leading_slashes path) ≠ Some slash.
Proof.
  induction path as [|c r IH]; simpl; [done|].
  case_bool_decide; [done|]. simpl. congruence.
Qed.

(** ** C8, C10: safeParse and buildUrl *)

(** C8. [safeParse] is total and never throws: on every string it completes
    normally, with the decoded value exactly when [JSON.parse] returns it
    and with undefined exactly when [JSON.parse] throws. *)
Theorem safeParse_total (s : jsstring) :
  (∃ r, safeParse P s = Normal r)
  ∧ (∀ v, JSON_parse P s = Normal v ↔ safeParse P s = Normal (Some v))
  ∧ ((∃ m, JSON_parse P s = Throw m) ↔ safeParse P s = Normal undefined).
Proof.
  unfold safeParse. destruct (JSON_parse P s) as [v|m].
  - split; [by eexists|]. split; [intros v'; split; congruence|].
    split; [intros [m [=]] | intros [=]].
  - split; [by eexists|]. split; [intros v'; split; intros [=]|].
    split; [done | intros _; by exists m].
Qed.

(** C10. [buildUrl] is a function of [apiBase] and [path] alone (it reads
    no state of the component): it removes every leading slash of [path],
    and for an [apiBase] that is empty or exactly ["/"] it returns ["/"]
    followed by the normalized path. *)
Theorem buildUrl_normalizes (base path : jsstring) :
  let normalized := strip_leading_slashes path in
  (∃ k, path = replicate k slash ++ normalized)
  ∧ head normalized ≠ Some slash
  ∧ buildUrl_from P [] path = js "/" ++ normalized
  ∧ buildUrl_from P (js "/") path = js "/" ++ normalized
  ∧ (∀ base' path', (base', path') = (base, path) →
       buildUrl_from P base' path' = buildUrl_from P base path).
Proof.
  repeat split.
  - apply strip_leading_slashes_split.
  - apply strip_leading_slashes_head.
  - by intros ?? [= -> ->].
Qed.

(** ** C9: updateAgent *)

Lemma spread_slot_spread_array (prev : list slot) (idx : nat) :
  spread_slot (spread_array prev !! idx) = spread_slot (prev !! idx).
Proof.
  unfold spread_array. rewrite list_lookup_fmap.
  by destruct (prev !! idx) as [[]|].
Qed.

Lemma spread_array_no_hole (prev : list slot) :
  Forall (λ s, s ≠ Hole) prev → spread_array prev = prev.
Proof.
  induction 1 as [|s r Hs _ IH]; [done|].
  unfold spread_array in *. rewrite fmap_cons, IH. by destruct s.
Qed.

(** [{ ...a, ...patch }] field by field: a key of the patch replaces the
    field, also when its value is undefined; a key the patch does not have
    leaves the field as it is. *)
Lemma merge_fields (a : AgentSpec) (patch : AgentPatch) :
  name (merge a patch)
    = match patch_name patch with Some v => v | None => name a end
  ∧ system_prompt (merge a patch)
    = match patch_system_prompt patch with Some v => v | None => system_prompt a end
  ∧ model (merge a patch)
    = match patch_model patch with Some v => v | None => model a end.
Proof. by destruct patch as [[?|] [?|] [?|]]. Qed.

(** C9. For an index inside the array, [updateAgent] keeps the length and
    leaves every other position as it was: the same agent at the same
    place (a hole, which holds no agent, is copied as undefined).  At [idx]
    it puts an agent [b] whose every field is the value the patch gives it
    when the patch has that key, and otherwise the field of the agent that
    was there (or no value, where no agent was there). *)
Theorem updateAgent_frame (prev : list slot) (idx : nat) (patch : AgentPatch) :
  idx < length prev →
  let next := updateAgent idx patch prev in
  ∃ b,
    length next = length prev
    ∧ next !! idx = Some (Agent b)
    ∧ (∀ a, prev !! idx = Some (Agent a) →
         name b = match patch_name patch with Some v => v | None => name a end
         ∧ system_prompt b
           = match patch_system_prompt patch with
             | Some v => v
             | None => system_prompt a
             end
         ∧ model b = match patch_model patch with Some v => v | None => model a end)
    ∧ ((∀ a, prev !! idx ≠ Some (Agent a)) →
         name b = match patch_name patch with Some v => v | None => None end
         ∧ system_prompt b
           = match patch_system_prompt patch with Some v => v | None => None end
         ∧ model b = match patch_model patch with Some v => v | None => None end)
    ∧ (∀ j, j ≠ idx → next !! j = spread_array prev !! j)
    ∧ (∀ j a, j ≠ idx → next !! j = Some (Agent a) ↔ prev !! j = Some (Agent a))
    ∧ (Forall (λ s, s ≠ Hole) prev →
         next = take idx prev ++ Agent b :: drop (S idx) prev).
Proof.
  intros Hidx next.
  assert (Hlen : length (spread_array prev) = length prev)
    by (unfold spread_array; apply length_fmap).
  assert (Hnext : next = <[idx := Agent (merge (spread_slot (prev !! idx)) patch)]>
                           (spread_array prev)).
  { unfold next, updateAgent. rewrite spread_slot_spread_array.
    rewrite bool_decide_eq_true_2; [done|]. by rewrite Hlen. }
  assert (Hother : ∀ j, j ≠ idx → next !! j = spread_array prev !! j).
  { intros j Hj. rewrite Hnext. by apply list_lookup_insert_ne. }
  exists (merge (spread_slot (prev !! idx)) patch). split_and!.
  - by rewrite Hnext, length_insert.
  - rewrite Hnext. apply list_lookup_insert_eq. by rewrite Hlen.
  - intros a Ha. rewrite Ha. apply merge_fields.
  - intros Hnone.
    assert (Hold : spread_slot (prev !! idx) = empty_object).
    { destruct (prev !! idx) as [[| |a]|] eqn:Ha; try done. by destruct (Hnone a). }
    rewrite Hold. apply merge_fields.
  - done.
  - intros j a Hj. rewrite (Hother j) by done. unfold spread_array.
    rewrite list_lookup_fmap. split.
    + destruct (prev !! j) as [[]|]; simpl; congruence.
    + by intros ->.
  - intros Hholes. rewrite Hnext, (spread_array_no_hole prev Hholes).
    by rewrite insert_take_drop.
Qed.

(** ** C4: a blank task *)

(** C4. When the task is empty or made of whitespace only, [runSwarm]
    returns at once without suspending: it sets the error message and
    changes nothing else, so no request is issued and nothing is left
    pending; this holds for the call itself and for a click on Run. *)
Theorem runSwarm_rejects_blank_task (w : World) :
  Forall (λ c, is_whitespace c = true) (task w) →
  let w' := set_error (Some (js "Please enter a task before running the swarm.")) w in
  runSwarm P w = (Normal None, w')
  ∧ step P w Call_runSwarm = Some w'
  ∧ step P w Click_Run = (if Run_disabled w then None else Some w')
  ∧ requests w' = requests w
  ∧ pending w' = pending w
  ∧ sources w' = sources w.
Proof.
  intros Hblank w'.
  assert (Hrun : runSwarm P w = (Normal None, w')).
  { unfold runSwarm, mbind, M_bind, read. by rewrite (blank_whitespace _ Hblank). }
  repeat split; try done.
  - simpl. unfold spawn. by rewrite Hrun.
  - simpl. unfold spawn. by rewrite Hrun.
Qed.

(** ** The poll loop, step by step *)

Lemma World_eq (w w' : World) :
  task w = task w' → agents w = agents w' → settings w = settings w' →
  loading w = loading w' → resp w = resp w' → error w = error w' →
  runId w = runId w' → streaming w = streaming w' → traces w = traces w' →
  esRef w = esRef w' → activeTab w = activeTab w' → sources w = sources w' →
  pending w = pending w' → spawned w = spawned w' → requests w = requests w' →
  clock w = clock w' → w = w'.
Proof. destruct w, w'; simpl; intros; by subst. Qed.

Ltac world_eq := apply World_eq; simpl; try done.

Ltac segments :=
  cbv [runSwarm runSwarm_response runSwarm_body runSwarm_catch destructure_run_id
       dispatch on_ready on_start on_log on_error onerror on_summary on_done
       done_listener fetchFinal fetchFinal_loop fetchFinal_response fetchFinal_timer
       fetchFinal_body parse_data new_EventSource close_esRef_current close fetch
       addTrace clearTraces cleanup setError setResp setRunId setLoading setStreaming
       setActiveTab set_esRef_current modify read lift throw try_catch
       mbind mret M_bind M_ret resume spawn].

Ltac segments_in H :=
  cbv [runSwarm runSwarm_response runSwarm_body runSwarm_catch destructure_run_id
       dispatch on_ready on_start on_log on_error onerror on_summary on_done
       done_listener fetchFinal fetchFinal_loop fetchFinal_response fetchFinal_timer
       fetchFinal_body parse_data new_EventSource close_esRef_current close fetch
       addTrace clearTraces cleanup setError setResp setRunId setLoading setStreaming
       setActiveTab set_esRef_current modify read lift throw try_catch
       mbind mret M_bind M_ret resume spawn] in H.

Lemma run_cons (w w1 : World) (e : Event) (rest : list Event) :
  step P w e = Some w1 → run P w (e :: rest) = run P w1 rest.
Proof. intros H. simpl. by rewrite H. Qed.

Lemma run_app (w w1 : World) (es1 es2 : list Event) :
  run P w es1 = Some w1 → run P w (es1 ++ es2) = run P w1 es2.
Proof.
  revert w. induction es1 as [|e es1 IH]; intros w; simpl.
  - by intros [= ->].
  - destruct (step P w e); [apply IH | done].
Qed.

Lemma run_invariant (I : World → Prop) :
  (∀ w e w', I w → step P w e = Some w' → I w') →
  ∀ events w w', I w → run P w events = Some w' → I w'.
Proof.
  intros Hstep. induction events as [|e rest IH]; intros w w' Hw Hrun; simpl in Hrun.
  - by injection Hrun as <-.
  - destruct (step P w e) as [w1|] eqn:He; [|done].
    apply (IH w1); [|done]. by apply (Hstep w e).
Qed.

(** A response 202: the function waits for the timer; nothing else moves. *)
Lemma step_poll_not_ready (w : World) (h : nat) (url : jsstring) (i : nat) :
  pending w !! h = Some (AwaitPoll url i) →
  step P w (Fetch_settled h (Response 202)) =
    Some (set_pending (<[h := AwaitPollTimer url i]> (pending w)) w).
Proof. intros H. simpl. rewrite H. segments. simpl. done. Qed.

(** The timer fires inside the budget: the next request goes out. *)
Lemma step_poll_timer (w : World) (h : nat) (url : jsstring) (i : nat) :
  pending w !! h = Some (AwaitPollTimer url i) → S i < 120 →
  step P w (Timer_fired h) =
    Some (set_pending (<[h := AwaitPoll url (S i)]> (pending w))
            (set_requests (requests w ++ [GET url]) w)).
Proof.
  intros H Hi. simpl. rewrite H. segments.
  rewrite bool_decide_eq_true_2 by done. done.
Qed.

(** The timer fires with the budget used up: the loop is left and
    [fetchFinal] throws; the listener records the message and clears the
    running flags. *)
Lemma step_poll_timer_exhausted (w : World) (h : nat) (url : jsstring) (i : nat) :
  pending w !! h = Some (AwaitPollTimer url i) → ¬ S i < 120 →
  step P w (Timer_fired h) =
    Some (set_pending (delete h (pending w))
            (set_streaming false (set_loading false
               (set_error (Some (js "Timed out waiting for result")) w)))).
Proof.
  intros H Hi. simpl. rewrite H. segments.
  rewrite bool_decide_eq_false_2 by done. done.
Qed.

(** A success status: the function goes on to read the body. *)
Lemma step_poll_success (w : World) (h : nat) (url : jsstring) (i : nat) (status : N) :
  pending w !! h = Some (AwaitPoll url i) → ok status = true → status ≠ 202%N →
  step P w (Fetch_settled h (Response status)) =
    Some (set_pending (<[h := AwaitPollBody]> (pending w)) w).
Proof.
  intros H Hok H202. simpl. rewrite H. segments.
  rewrite bool_decide_eq_false_2 by done. rewrite Hok. done.
Qed.

(** The body arrives: [setResp(data); return], then the [finally] block.
    No test relates the poll to the run the component shows. *)
Lemma step_poll_body (w : World) (h : nat) (data : json) :
  pending w !! h = Some AwaitPollBody →
  step P w (Json_settled h (JsonValue data)) =
    Some (set_pending (delete h (pending w))
            (set_streaming false (set_loading false (set_resp data w)))).
Proof. intros H. simpl. rewrite H. by segments. Qed.

(** A [done] event on an open stream: the listener calls [fetchFinal], whose
    first request goes out. *)
Lemma step_done (w : World) (es : nat) (s : EventSource) (data : option jsstring)
    (id_text : jsstring) :
  sources w !! es = Some s → closed s = false →
  toString P (es_run_id s) = Normal id_text →
  step P w (Stream_event es (js "done") data) =
    Some (set_spawned (S (spawned w))
            (set_pending (<[spawned w := AwaitPoll (result_url P id_text) 0]> (pending w))
               (set_requests (requests w ++ [GET (result_url P id_text)])
                  (after_done P w es data)))).
Proof.
  intros Hs Hopen Hid. simpl. rewrite Hs, Hopen. unfold after_done, result_url.
  segments. rewrite Hid. unfold safeParse. destruct (JSON_parse P _); simpl; done.
Qed.

(** A round of the loop that finds the result not ready. *)
Lemma poll_round (w : World) (h : nat) (url : jsstring) (i : nat) :
  pending w !! h = Some (AwaitPoll url i) → S i < 120 →
  run P w [Fetch_settled h (Response 202); Timer_fired h] =
    Some (set_pending (<[h := AwaitPoll url (S i)]> (pending w))
            (set_requests (requests w ++ [GET url]) w)).
Proof.
  intros H Hi. rewrite (run_cons _ _ _ _ (step_poll_not_ready w h url i H)).
  erewrite run_cons;
    [|apply (step_poll_timer _ h url i); [by simpl; apply lookup_insert_eq|done]].
  simpl. f_equal. world_eq. apply insert_insert_eq.
Qed.

Lemma poll_rounds (n : nat) (w : World) (h : nat) (url : jsstring) (i : nat) :
  pending w !! h = Some (AwaitPoll url i) → i + n < 120 →
  run P w (concat (replicate n [Fetch_settled h (Response 202); Timer_fired h])) =
    Some (set_pending (<[h := AwaitPoll url (i + n)]> (pending w))
            (set_requests (requests w ++ replicate n (GET url)) w)).
Proof.
  revert w i. induction n as [|n IH]; intros w i H Hi.
  - simpl. f_equal. world_eq.
    + rewrite Nat.add_0_r. symmetry. by apply insert_id.
    + by rewrite app_nil_r.
  - change (concat (replicate (S n) ?r)) with (r ++ concat (replicate n r)).
    rewrite (run_app _ _ _ _ (poll_round w h url i H ltac:(lia))).
    rewrite (IH _ (S i)); [|by simpl; apply lookup_insert_eq|lia].
    f_equal. world_eq.
    + rewrite insert_insert_eq. f_equal. f_equal. lia.
    + by rewrite <- app_assoc.
Qed.

(** Once the poll function has returned or thrown, no event can resume it. *)
Lemma finished_is_silent (w : World) (h : nat) :
  pending w !! h = None →
  (∀ o, step P w (Fetch_settled h o) = None)
  ∧ (∀ o, step P w (Json_settled h o) = None)
  ∧ step P w (Timer_fired h) = None.
Proof. intros H. simpl. by rewrite H. Qed.

(** ** C2, C5: fetchFinal *)

(** C2. With the poll answered 202, 202 and then a success carrying [R],
    [fetchFinal] issues exactly three requests, all to the result URL of
    the run, stores [R] with [setResp] and returns: the function is no
    longer pending, so no event can make it issue another request. *)
Theorem fetchFinal_third_attempt_succeeds
    (w : World) (es : nat) (s : EventSource) (data : option jsstring)
    (id_text : jsstring) (status : N) (R : json) :
  sources w !! es = Some s → closed s = false →
  toString P (es_run_id s) = Normal id_text →
  ok status = true → status ≠ 202%N →
  let h := spawned w in
  let url := result_url P id_text in
  ∃ w',
    run P w [ Stream_event es (js "done") data;
              Fetch_settled h (Response 202); Timer_fired h;
              Fetch_settled h (Response 202); Timer_fired h;
              Fetch_settled h (Response status); Json_settled h (JsonValue R) ]
      = Some w'
    ∧ requests w' = requests w ++ [GET url; GET url; GET url]
    ∧ resp w' = R
    ∧ error w' = error w
    ∧ loading w' = false ∧ streaming w' = false
    ∧ pending w' = delete h (pending w)
    ∧ (∀ o, step P w' (Fetch_settled h o) = None)
    ∧ (∀ o, step P w' (Json_settled h o) = None)
    ∧ step P w' (Timer_fired h) = None.
Proof.
  intros Hs Hopen Hid Hok H202 h url.
  pose proof (step_done w es s data id_text Hs Hopen Hid) as Hdone. fold h url in Hdone.
  set (w1 := set_spawned _ _) in Hdone.
  assert (H1 : pending w1 !! h = Some (AwaitPoll url 0))
    by (simpl; apply lookup_insert_eq).
  pose proof (poll_rounds 2 w1 h url 0 H1 ltac:(lia)) as Hrounds.
  set (w2 := set_pending _ _) in Hrounds.
  assert (H2 : pending w2 !! h = Some (AwaitPoll url 2))
    by (simpl; apply lookup_insert_eq).
  pose proof (step_poll_success w2 h url 2 status H2 Hok H202) as Hsucc.
  set (w3 := set_pending _ _) in Hsucc.
  assert (H3 : pending w3 !! h = Some AwaitPollBody)
    by (simpl; apply lookup_insert_eq).
  pose proof (step_poll_body w3 h R H3) as Hbody.
  set (w4 := set_pending _ _) in Hbody.
  assert (Hgone : pending w4 !! h = None) by (simpl; apply lookup_delete_eq).
  exists w4. split.
  - rewrite (run_cons _ _ _ _ Hdone).
    rewrite (run_app _ _ _ [_; _] Hrounds : run P w1 (_ :: _ :: _ :: _ :: _) = _).
    by rewrite (run_cons _ _ _ _ Hsucc), (run_cons _ _ _ _ Hbody).
  - split_and!; try done.
    + simpl. by rewrite <- !app_assoc.
    + simpl. by rewrite !delete_insert_eq.
    + apply finished_is_silent, Hgone.
    + apply finished_is_silent, Hgone.
    + apply finished_is_silent, Hgone.
Qed.

(** C5. With every poll answered 202, [fetchFinal] gives up after 120
    requests: it throws, the listener shows the message [Timed out waiting
    for result] and clears the running flags, and the function is no longer
    pending: neither a timer nor a request of it is left. *)
Theorem fetchFinal_times_out
    (w : World) (es : nat) (s : EventSource) (data : option jsstring)
    (id_text : jsstring) :
  sources w !! es = Some s → closed s = false →
  toString P (es_run_id s) = Normal id_text →
  let h := spawned w in
  let url := result_url P id_text in
  ∃ w',
    run P w (Stream_event es (js "done") data ::
             concat (replicate 120 [Fetch_settled h (Response 202); Timer_fired h]))
      = Some w'
    ∧ error w' = Some (js "Timed out waiting for result")
    ∧ requests w' = requests w ++ replicate 120 (GET url)
    ∧ resp w' = resp w
    ∧ loading w' = false ∧ streaming w' = false
    ∧ pending w' = delete h (pending w)
    ∧ (∀ o, step P w' (Fetch_settled h o) = None)
    ∧ (∀ o, step P w' (Json_settled h o) = None)
    ∧ step P w' (Timer_fired h) = None.
Proof.
  intros Hs Hopen Hid h url.
  pose proof (step_done w es s data id_text Hs Hopen Hid) as Hdone. fold h url in Hdone.
  set (w1 := set_spawned _ _) in Hdone.
  assert (H1 : pending w1 !! h = Some (AwaitPoll url 0))
    by (simpl; apply lookup_insert_eq).
  pose proof (poll_rounds 119 w1 h url 0 H1 ltac:(lia)) as Hrounds.
  set (w2 := set_pending _ _) in Hrounds.
  assert (H2 : pending w2 !! h = Some (AwaitPoll url 119))
    by (simpl; apply lookup_insert_eq).
  pose proof (step_poll_not_ready w2 h url 119 H2) as Hlast.
  set (w3 := set_pending _ _) in Hlast.
  assert (H3 : pending w3 !! h = Some (AwaitPollTimer url 119))
    by (simpl; apply lookup_insert_eq).
  pose proof (step_poll_timer_exhausted w3 h url 119 H3 ltac:(lia)) as Hout.
  set (w4 := set_pending _ _) in Hout.
  assert (Hgone : pending w4 !! h = None) by (simpl; apply lookup_delete_eq).
  exists w4. split.
  - rewrite (run_cons _ _ _ _ Hdone).
    replace (concat (replicate 120 [Fetch_settled h (Response 202); Timer_fired h]))
      with (concat (replicate 119 [Fetch_settled h (Response 202); Timer_fired h])
            ++ [Fetch_settled h (Response 202); Timer_fired h]).
    + rewrite (run_app _ _ _ _ Hrounds).
      by rewrite (run_cons _ _ _ _ Hlast), (run_cons _ _ _ _ Hout).
    + change 120 with (119 + 1). by rewrite replicate_add, concat_app.
  - split_and!; try done.
    + simpl requests. by rewrite <- app_assoc.
    + simpl. by rewrite !delete_insert_eq.
    + apply finished_is_silent, Hgone.
    + apply finished_is_silent, Hgone.
    + apply finished_is_silent, Hgone.
Qed.

(** ** C7: the trace log *)

Lemma stamp_app (k : nat) (fs fs' : list TraceFields) :
  stamp P k (fs ++ fs') = stamp P k fs ++ stamp P (length fs + k) fs'.
Proof.
  unfold stamp. rewrite imap_app. f_equal.
  apply imap_ext. intros i f _. simpl. do 2 f_equal. lia.
Qed.

Ltac split_matches H :=
  repeat (simpl in H;
          match type of H with
          | context [match ?x with _ => _ end] =>
              lazymatch x with
              | context [match _ with _ => _ end] => fail
              | _ => destruct x eqn:?
              end
          end).

Ltac split_goal :=
  repeat (simpl;
          match goal with
          | |- context [match ?x with _ => _ end] =>
              lazymatch x with
              | context [match _ with _ => _ end] => fail
              | _ => destruct x eqn:?
              end
          end);
  simpl.

Ltac trace_step :=
  first
    [ exists [], 0; simpl; split_and!; [by rewrite ?app_nil_r | done | lia | done]
    | eexists [_], 0; simpl; split_and!; [reflexivity | done | lia | done]
    | eexists [_; _], 0; simpl; split_and!; [by rewrite <- app_assoc | done | lia | done]
    | match goal with
      | w : World |- _ =>
          exists [], (length (traces w)); simpl;
          split_and!; [by rewrite app_nil_r, drop_all | done | lia | done]
      end ].

(** What one event does to the trace: the handlers append entries, each
    stamped with the next reading of the clock, and [clearTraces] drops the
    entries there are; nothing else touches it. *)
Lemma step_trace (w w' : World) (e : Event) :
  step P w e = Some w' →
  ∃ fs n, traces w' = drop n (traces w ++ stamp P (clock w) fs)
          ∧ clock w' = length fs + clock w
          ∧ n ≤ length (traces w) + length fs
          ∧ (empties_trace e = false → n = 0).
Proof.
  intros H. destruct e; unfold step in H; segments_in H;
    split_matches H; try discriminate H; injection H as H; subst w'; trace_step.
Qed.

Lemma length_stamp (k : nat) (fs : list TraceFields) : length (stamp P k fs) = length fs.
Proof. unfold stamp. apply length_imap. Qed.

(** C7 (as the source has it).  The trace is at all times the end of the
    sequence of arrivals: after any sequence of events it holds the old
    entries followed by the new ones, in the order they arrived, less a
    number of entries dropped from the front; and the timestamp of every
    new entry is the reading of [Date.now()] the component took when it
    appended it (the [n]-th new entry carries the [n]-th reading), whatever
    the message held.  Entries are dropped only by [clearTraces]: while
    nobody clicks Clear and no run is started, which is possible during a
    run, the trace only grows at its end. *)
Theorem trace_follows_arrivals (w w' : World) (events : list Event) :
  run P w events = Some w' →
  ∃ fs n,
    traces w' = drop n (traces w ++ stamp P (clock w) fs)
    ∧ clock w' = length fs + clock w
    ∧ n ≤ length (traces w) + length fs
    ∧ length (traces w') = length (traces w) + length fs - n
    ∧ (∀ k f, fs !! k = Some f → n ≤ length (traces w) + k →
         traces w' !! (length (traces w) + k - n)
           = Some {| ts := Date_now P (k + clock w); fields := f |})
    ∧ (Forall (λ e, empties_trace e = false) events →
         n = 0
         ∧ traces w' = traces w ++ stamp P (clock w) fs
         ∧ length (traces w) ≤ length (traces w')
         ∧ take (length (traces w)) (traces w') = traces w).
Proof.
  intros H.
  assert (Happ : ∃ fs n, traces w' = drop n (traces w ++ stamp P (clock w) fs)
                         ∧ clock w' = length fs + clock w
                         ∧ n ≤ length (traces w) + length fs
                         ∧ (Forall (λ e, empties_trace e = false) events → n = 0)).
  { revert w H. induction events as [|e rest IH]; intros w H; simpl in H.
    - injection H as H. subst w'. exists [], 0. simpl.
      split_and!; [by rewrite app_nil_r | done | lia | done].
    - destruct (step P w e) as [w1|] eqn:Hstep; [|done].
      destruct (step_trace w w1 e Hstep) as (fs1 & n1 & Ht1 & Hc1 & Hn1 & Hz1).
      destruct (IH w1 H) as (fs2 & n2 & Ht2 & Hc2 & Hn2 & Hz2).
      assert (Hl1 : length (traces w1) = length (traces w) + length fs1 - n1)
        by (rewrite Ht1, length_drop, length_app, length_stamp; lia).
      exists (fs1 ++ fs2), (n1 + n2). split_and!.
      + rewrite Ht2, Ht1, Hc1, stamp_app, app_assoc.
        rewrite <- (drop_app_le _ (stamp P _ fs2))
          by (rewrite length_app, length_stamp; lia).
        by rewrite drop_drop.
      + rewrite length_app. lia.
      + rewrite length_app. lia.
      + intros Hev. apply Forall_cons in Hev as [He Hrest].
        rewrite (Hz1 He), (Hz2 Hrest). done. }
  destruct Happ as (fs & n & Ht & Hc & Hn & Hz). exists fs, n.
  split_and!; try done.
  - rewrite Ht, length_drop, length_app, length_stamp. done.
  - intros k f Hk Hle. rewrite Ht, lookup_drop.
    replace (n + (length (traces w) + k - n)) with (length (traces w) + k) by lia.
    rewrite lookup_app_r by lia.
    replace (length (traces w) + k - length (traces w)) with k by lia.
    unfold stamp. rewrite list_lookup_imap, Hk. done.
  - intros Hev. specialize (Hz Hev). subst n. rewrite drop_0 in Ht.
    split_and!; try done.
    + rewrite Ht, length_app. lia.
    + by rewrite Ht, take_app_length.
Qed.

(** ** C6: a payload that does not decode *)

Lemma dispatch_start es run_id data :
  dispatch P es run_id (js "start") data = (on_start P run_id data;; mret None).
Proof. reflexivity. Qed.

Lemma dispatch_log es run_id data :
  dispatch P es run_id (js "log") data = (on_log P data;; mret None).
Proof. reflexivity. Qed.

Lemma dispatch_error es run_id data :
  dispatch P es run_id (js "error") data = (on_error P data;; onerror P;; mret None).
Proof. reflexivity. Qed.

Lemma dispatch_done es run_id data :
  dispatch P es run_id (js "done") data = on_done P es run_id data.
Proof. reflexivity. Qed.

Lemma dispatch_summary es run_id data :
  dispatch P es run_id (js "summary") data = (on_summary P data;; mret None).
Proof. reflexivity. Qed.

(** C6. A message of a type whose listener decodes the payload ([start],
    [log], [error], [done], [summary]) and whose payload is not JSON: the
    listener completes normally, the error shown by the component does not
    change, and the trace entry of that type is appended with every field
    of the payload absent ([log] falls back to the level LOG, [error] to
    the message [server error] and is followed by the entry of [onerror]).
    The stream stays open, except after [done], the terminal signal, which
    closes the stream whatever its payload. *)
Theorem malformed_payload_is_absorbed
    (w : World) (es : nat) (s : EventSource) (id_text : jsstring)
    (name : jsstring) (data : option jsstring) (m : jsstring) :
  sources w !! es = Some s → closed s = false →
  toString P (es_run_id s) = Normal id_text →
  JSON_parse P (default (js "undefined") data) = Throw m →
  name ∈ [js "start"; js "log"; js "error"; js "done"; js "summary"] →
  ∃ w',
    step P w (Stream_event es name data) = Some w'
    ∧ (∃ r w0, dispatch P es (es_run_id s) name data w = (Normal r, w0))
    ∧ error w' = error w
    ∧ resp w' = resp w
    ∧ sources w' !! es
        = Some (if bool_decide (name = js "done") then close_source s else s)
    ∧ traces w' = traces w ++ stamp P (clock w)
        (if bool_decide (name = js "start") then
           [ {| type := Start; level := None; message := None;
                run_id := es_run_id s; ev_task := None; status := None;
                has_output := None; output_preview := None;
                transcript_preview := None |} ]
         else if bool_decide (name = js "log") then
           [ {| type := Log; level := str "LOG"; message := None; run_id := None;
                ev_task := None; status := None; has_output := None;
                output_preview := None; transcript_preview := None |} ]
         else if bool_decide (name = js "error") then
           [ {| type := Error; level := None; message := str "server error";
                run_id := None; ev_task := None; status := None;
                has_output := None; output_preview := None;
                transcript_preview := None |};
             {| type := ClientError; level := None;
                message := str "stream connection error"; run_id := None;
                ev_task := None; status := None; has_output := None;
                output_preview := None; transcript_preview := None |} ]
         else if bool_decide (name = js "done") then [ no_fields Done ]
         else [ no_fields Summary ]).
Proof.
  intros Hs Hopen Hid Hbad Hname.
  assert (Hparse : safeParse P (default (js "undefined") data) = Normal undefined)
    by (unfold safeParse; by rewrite Hbad).
  unfold step. rewrite Hs, Hopen.
  repeat (apply elem_of_cons in Hname as [->|Hname]); [..|by apply elem_of_nil in Hname].
  - rewrite dispatch_start. eexists. split; [reflexivity|].
    segments. rewrite Hparse. simpl. split_and!; eauto.
  - rewrite dispatch_log. eexists. split; [reflexivity|].
    segments. rewrite Hparse. simpl. split_and!; eauto.
  - rewrite dispatch_error. eexists. split; [reflexivity|].
    segments. rewrite Hparse. simpl. split_and!; eauto. by rewrite <- app_assoc.
  - rewrite dispatch_done. eexists. split; [reflexivity|].
    segments. rewrite Hparse, Hid. simpl. split_and!; eauto.
    rewrite list_lookup_alter, Hs. by case_decide.
  - rewrite dispatch_summary. eexists. split; [reflexivity|].
    segments. rewrite Hparse. simpl. split_and!; eauto.
Qed.

(** ** Rendering *)

Lemma forallb_stamp (k : nat) (fs : list TraceFields) :
  forallb (λ t, render_trace P (fields t)) (stamp P k fs) = forallb (render_trace P) fs.
Proof.
  unfold stamp.
  assert (H : ∀ g : nat → Z,
            forallb (λ t, render_trace P (fields t))
              (imap (λ i f, {| ts := g i; fields := f |}) fs)
            = forallb (render_trace P) fs).
  { induction fs as [|f fs IH]; intros g; [done|].
    rewrite imap_cons. simpl. f_equal. apply (IH (g ∘ S)). }
  apply (H (λ i, Date_now P (i + k))).
Qed.

(** The render reads the roster, the run id, the active tab, the trace and
    the result, and nothing else. *)
Lemma renders_frame (w w' : World) :
  agents w' = agents w → runId w' = runId w → activeTab w' = activeTab w →
  traces w' = traces w → resp w' = resp w →
  renders P plus_text w' = renders P plus_text w.
Proof. unfold renders. by intros -> -> -> -> ->. Qed.

Lemma renders_entries (w : World) (c : nat) (fs : list TraceFields) :
  renders P plus_text (set_clock c (set_traces (traces w ++ stamp P (clock w) fs) w))
  = renders P plus_text w && render_entries P (activeTab w) fs.
Proof.
  unfold renders, render_entries. simpl.
  destruct (activeTab w); rewrite ?forallb_app, ?forallb_stamp;
    repeat match goal with
           | |- context [forallb ?f ?l] =>
               let b := fresh "b" in set (b := forallb f l); clearbody b
           | |- context [sliced_if_truthy P ?n ?v] =>
               let b := fresh "b" in set (b := sliced_if_truthy P n v); clearbody b
           | |- context [render_status P ?v] =>
               let b := fresh "b" in set (b := render_status P v); clearbody b
           | |- context [mapped P ?r ?v] =>
               let b := fresh "b" in set (b := mapped P r v); clearbody b
           end;
    repeat match goal with b : bool |- _ => destruct b end; reflexivity.
Qed.

(** The component renders when it is mounted. *)
Lemma renders_initial : renders P plus_text initial = true.
Proof. reflexivity. Qed.

(** A new run id that is missing, null or a string renders. *)
Lemma renders_runId (w : World) (v : jsval) :
  v = undefined ∨ v = null ∨ (∃ text, v = Some (JStr text)) →
  renders P plus_text w = true → renders P plus_text (set_runId v w) = true.
Proof.
  intros Hv. unfold renders. simpl.
  assert (Hs : sliced_if_truthy P 8 v = true).
  { destruct Hv as [-> | [-> | [text ->]]]; try done.
    unfold sliced_if_truthy. by destruct (truthy P _). }
  rewrite Hs. destruct (forallb _ (agents w)); [|done].
  by destruct (sliced_if_truthy P 8 (runId w)).
Qed.

(** ** C3: the body of the submit response *)

(** C3 (as the source has it).  Once the submit call has returned a success
    status, [runSwarm] fails (the message of the exception, or [Request
    failed], is shown, the running flags are cleared, no stream is opened)
    when the body cannot be read as JSON, when it is the JSON value null,
    and when the EventSource constructor throws.  A body other than null
    whose [run_id] is missing, null or a string does not fail for that: no
    error is raised, [run_id] is taken as the body gives it, undefined when
    it is missing, the stream is opened at [buildUrl(`api/stream/${run_id}`)]
    and the component renders with the run in its streaming phase. *)
Theorem submit_body_decides
    (w : World) (h : nat) (m : jsstring) (v : json) :
  pending w !! h = Some AwaitStartBody →
  renders P plus_text w = true →
  let failed := λ (message : jsstring) (w' : World),
    error w' = Some (str_or message (js "Request failed"))
    ∧ loading w' = false ∧ streaming w' = false ∧ esRef w' = None
    ∧ length (sources w') = length (sources w)
    ∧ pending w' = delete h (pending w) in
  let streams := λ (run_id : jsval) (id_text : jsstring) (w' : World),
    error w' = error w
    ∧ loading w' = loading w ∧ streaming w' = streaming w
    ∧ runId w' = run_id
    ∧ sources w'
        = sources w ++ [ {| es_url := stream_url P id_text; es_run_id := run_id;
                            closed := false |} ]
    ∧ esRef w' = Some (length (sources w))
    ∧ pending w' = delete h (pending w) in
  let run_id := get (Some v) "run_id" in
  ∃ w1 w2,
    deliver P plus_text w (Json_settled h (JsonRejected m)) = Some (Rendered w1)
    ∧ failed m w1
    ∧ step P w (Json_settled h (JsonValue v)) = Some w2
    ∧ (v = JNull →
         deliver P plus_text w (Json_settled h (JsonValue v)) = Some (Rendered w2)
         ∧ failed (TypeError_destructure P) w2)
    ∧ (v ≠ JNull →
       run_id = undefined ∨ run_id = null ∨ (∃ text, run_id = Some (JStr text)) →
         ∃ id_text,
           toString P run_id = Normal id_text
           ∧ deliver P plus_text w (Json_settled h (JsonValue v)) = Some (Rendered w2)
           ∧ match EventSource_throws P (stream_url P id_text) with
             | Some message => failed message w2
             | None => streams run_id id_text w2
             end).
Proof.
  intros H Hrender failed streams run_id.
  unfold failed, streams, run_id, stream_url, deliver.
  exists (resume h (runSwarm_body P (JsonRejected m)) w),
         (resume h (runSwarm_body P (JsonValue v)) w).
  unfold step. rewrite H.
  refine (conj _ (conj _ (conj eq_refl (conj _ _)))).
  - rewrite (renders_frame w); [by rewrite Hrender | segments; by split_goal..].
  - segments. split_goal; split_and!; try done; apply length_alter.
  - intros ->. split.
    + rewrite (renders_frame w); [by rewrite Hrender | segments; by split_goal..].
    + segments. split_goal; split_and!; try done; apply length_alter.
  - intros Hv Hid.
    assert (Htext : ∃ id_text, toString P (get (Some v) "run_id") = Normal id_text).
    { destruct Hid as [-> | [-> | [text ->]]]; by eexists. }
    destruct Htext as [id_text Htext]. exists id_text. split; [done|].
    assert (Hshown : ∀ w', agents w' = agents w → activeTab w' = activeTab w →
                       traces w' = traces w → resp w' = resp w →
                       runId w' = get (Some v) "run_id" →
                       renders P plus_text w' = true).
    { intros w' Ha Ht Htr Hr Hi.
      rewrite (renders_frame (set_runId (get (Some v) "run_id") w) w') by done.
      by apply (renders_runId w _ Hid). }
    split.
    + rewrite Hshown; [done | destruct v; try done; segments; rewrite Htext;
                               by split_goal..].
    + destruct v; try done; segments; rewrite Htext;
        split_goal; split_and!; try done; apply length_alter.
Qed.

(** ** Phases are invariant *)

Lemma all_closed_alter (l : list EventSource) (es : nat) :
  all_closed l → all_closed (alter close_source es l).
Proof. intros H. apply Forall_alter; [done|]. by intros [] _ _. Qed.

Lemma all_closed_lookup (l : list EventSource) (es : nat) (s : EventSource) :
  all_closed l → l !! es = Some s → closed s = false → False.
Proof.
  intros H Hs Hopen. pose proof (Forall_lookup_1 _ _ _ _ H Hs) as Hc.
  simpl in Hc. congruence.
Qed.

Lemma open_source_last (l : list EventSource) (s s' : EventSource) (es : nat) :
  all_closed l → (l ++ [s]) !! es = Some s' → closed s' = false →
  es = length l ∧ s' = s.
Proof.
  intros Hl Hs Hopen. apply lookup_snoc_Some in Hs as [[_ Hs]|[-> ->]]; [|done].
  destruct (all_closed_lookup l es s' Hl Hs Hopen).
Qed.

Lemma close_last (l : list EventSource) (s : EventSource) :
  all_closed l → all_closed (alter close_source (length l) (l ++ [s])).
Proof.
  intros Hl. replace (length l) with (length l + 0) by lia.
  rewrite alter_app_r. apply Forall_app. split; [done|]. by repeat constructor.
Qed.

(** Closing some stream keeps the phase or makes it quiet. *)
Lemma phase_close (w w' : World) (o : option nat) :
  pending w' = pending w → spawned w' = spawned w →
  loading w' = loading w → streaming w' = streaming w →
  sources w' = match o with
               | Some es => alter close_source es (sources w)
               | None => sources w
               end →
  phase w → phase w'.
Proof.
  intros Hp Hn Hl Hs Hsrc [Hq Hc | h k Hq Hh Hc Hl' Hs' | l s Hq Hsrcs Hc Hopen Hl' Hs'].
  - apply Quiet; [congruence|]. rewrite Hsrc. destruct o; [by apply all_closed_alter|done].
  - apply (Suspended _ h k); try congruence.
    rewrite Hsrc. destruct o; [by apply all_closed_alter|done].
  - destruct o as [es|]; [|apply (Streaming _ l s); congruence].
    rewrite Hsrcs in Hsrc. rewrite alter_app in Hsrc. case_decide as Hes.
    + apply (Streaming _ (alter close_source es l) s); try congruence.
      by apply all_closed_alter.
    + destruct (es - length l) as [|n] eqn:Hn'; simpl in Hsrc.
      * apply Quiet; [congruence|]. rewrite Hsrc.
        apply Forall_app. split; [done|]. by repeat constructor.
      * apply (Streaming _ l s); congruence.
Qed.

Lemma phase_frame (w w' : World) :
  pending w' = pending w → spawned w' = spawned w →
  loading w' = loading w → streaming w' = streaming w →
  sources w' = sources w →
  phase w → phase w'.
Proof. intros Hp Hn Hl Hs Hsrc. by apply (phase_close w w' None). Qed.

Ltac use_pending :=
  repeat match goal with
         | Hp : pending ?w = ∅, H : pending ?w !! _ = Some _ |- _ =>
             rewrite Hp, lookup_empty in H; discriminate H
         | Hp : pending ?w = {[_ := _]}, H : pending ?w !! _ = Some _ |- _ =>
             rewrite Hp in H; apply lookup_singleton_Some in H as [<- <-]
         end.

Ltac quiet :=
  apply Quiet; simpl;
  [ match goal with Hq : pending _ = _ |- _ => rewrite Hq end;
    by rewrite ?delete_singleton_eq, ?delete_empty
  | first [done | by apply all_closed_alter] ].

Ltac suspended h k :=
  apply (Suspended _ h k); simpl;
  [ match goal with Hq : pending _ = _ |- _ => rewrite Hq end;
    by rewrite ?insert_singleton_eq, ?insert_empty
  | lia
  | first [done | by apply all_closed_alter]
  | done
  | done ].

Lemma step_phase (w w' : World) (e : Event) :
  phase w → e ≠ Call_runSwarm → step P w e = Some w' → phase w'.
Proof.
  intros Hph He H. destruct e; try done; unfold step in H.
  - injection H as H; subst w'. by apply (phase_frame w).
  - injection H as H; subst w'. by apply (phase_frame w).
  - injection H as H; subst w'. by apply (phase_frame w).
  - injection H as H; subst w'. by apply (phase_frame w).
  - injection H as H; subst w'. by apply (phase_frame w).
  - injection H as H; subst w'. by apply (phase_frame w).
  - injection H as H; subst w'. by apply (phase_frame w).
  - (* Click_Run *)
    unfold Run_disabled in H.
    destruct (loading w) eqn:Hl; [done|]. destruct (streaming w) eqn:Hs; [done|].
    simpl in H. injection H as H; subst w'.
    destruct Hph as [Hq Hc | h k Hq Hh Hc Hl' Hs' | l s Hq Hsrcs Hc Hopen Hl' Hs'];
      [|congruence..].
    segments. destruct (blank (task w)); simpl.
    + by apply Quiet.
    + destruct (esRef w) as [es|]; simpl;
        (apply (Suspended _ (spawned w) AwaitStart); simpl;
         [by rewrite Hq, insert_empty|lia| |done|done]);
        [by apply all_closed_alter|done].
  - (* Fetch_settled *)
    destruct (pending w !! h) as [k|] eqn:Hk; [|done].
    destruct Hph as [Hq Hc | h0 k0 Hq Hh Hc Hl Hs | l s Hq Hsrcs Hc Hopen Hl Hs];
      use_pending.
    destruct k0; try done; injection H as H; subst w'; segments.
    + destruct o as [m|status]; [|destruct (ok status)]; split_goal;
        first [quiet | suspended h0 AwaitStartBody].
    + destruct o as [m|status]; [|case_bool_decide; [|destruct (ok status)]];
        split_goal;
        first [quiet | suspended h0 (AwaitPollTimer url i) | suspended h0 AwaitPollBody].
  - (* Json_settled *)
    destruct (pending w !! h) as [k|] eqn:Hk; [|done].
    destruct Hph as [Hq Hc | h0 k0 Hq Hh Hc Hl Hs | l s Hq Hsrcs Hc Hopen Hl Hs];
      use_pending.
    destruct k0; try done; injection H as H; subst w'; segments.
    + destruct o as [m|v]; [|destruct v]; split_goal; try quiet;
        (eapply (Streaming _ (sources w)); simpl;
         [by rewrite Hq, delete_singleton_eq|reflexivity|done..]).
    + destruct o as [m|v]; split_goal; quiet.
  - (* Timer_fired *)
    destruct (pending w !! h) as [k|] eqn:Hk; [|done].
    destruct Hph as [Hq Hc | h0 k0 Hq Hh Hc Hl Hs | l s Hq Hsrcs Hc Hopen Hl Hs];
      use_pending.
    destruct k0; try done; injection H as H; subst w'; segments.
    case_bool_decide; split_goal; first [quiet | suspended h0 (AwaitPoll url (S i))].
  - (* Stream_event *)
    destruct (sources w !! es) as [s1|] eqn:Hs1; [|done].
    destruct (closed s1) eqn:Hopen1; [done|]. injection H as H; subst w'.
    destruct Hph as [Hq Hc | h0 k0 Hq Hh Hc Hl Hs | l s Hq Hsrcs Hc Hopen Hl Hs];
      [destruct (all_closed_lookup _ _ _ Hc Hs1 Hopen1)..|].
    rewrite Hsrcs in Hs1.
    destruct (open_source_last l s s1 es Hc Hs1 Hopen1) as [-> ->].
    assert (Hph : phase w) by (by apply (Streaming _ l s)).
    segments. repeat case_bool_decide; split_goal;
      try (by apply (phase_frame w)); try (exfalso; lia).
    + eapply (Suspended _ (spawned w) (AwaitPoll _ 0)); simpl;
        [by rewrite Hq, insert_empty|lia| |done|done].
      rewrite Hsrcs. by apply close_last.
    + apply Quiet; simpl; [done|]. rewrite Hsrcs. by apply close_last.
  - (* Unmount *)
    injection H as H; subst w'. segments.
    destruct (esRef w) as [es|] eqn:Hes; simpl.
    + by apply (phase_close w _ (Some es)).
    + by apply (phase_frame w).
Qed.

Lemma reachable_phase (w : World) : reachable P w → phase w.
Proof.
  induction 1 as [|w e w' _ IH He Hstep].
  - apply Quiet; [done|]. constructor.
  - by apply (step_phase w w' e).
Qed.

Lemma phase_pending_loading (w : World) (h : nat) (k : Task) :
  phase w → pending w !! h = Some k → loading w = true.
Proof.
  intros [Hq Hc | h0 k0 Hq Hh Hc Hl Hs | l s Hq Hsrcs Hc Hopen Hl Hs] Hk; try done.
  by rewrite Hq, lookup_empty in Hk.
Qed.

Lemma run_reachable (w w' : World) (events : list Event) :
  reachable P w → Forall (λ e, e ≠ Call_runSwarm) events →
  run P w events = Some w' → reachable P w'.
Proof.
  intros Hw Hev. revert w Hw. induction Hev as [|e rest He _ IH]; intros w Hw H; simpl in H.
  - by injection H as <-.
  - destruct (step P w e) as [w1|] eqn:Hstep; [|done].
    apply (IH w1); [|done]. by apply (reachable_step P w e w1).
Qed.

(** ** Streams are opened for run ids that have a string form *)

Lemma has_text_close (l : list EventSource) (es : nat) :
  Forall (has_text P) l → Forall (has_text P) (alter close_source es l).
Proof. intros H. apply Forall_alter; [done|]. by intros [] _ ?. Qed.

Lemma step_has_text (w w' : World) (e : Event) :
  Forall (has_text P) (sources w) → step P w e = Some w' →
  Forall (has_text P) (sources w').
Proof.
  intros Hw H. destruct e; unfold step in H; segments_in H;
    split_matches H; try discriminate H; injection H as H; subst w'; simpl;
    first [ done
          | by apply has_text_close
          | apply Forall_app; split; [done|]; repeat constructor; by eexists ].
Qed.

(** In every state the component reaches, by the button or by calls of
    [runSwarm], [fetchFinal] can name the result URL of every stream. *)
Lemma run_has_text (w' : World) (events : list Event) :
  run P initial events = Some w' → Forall (has_text P) (sources w').
Proof.
  assert (H : ∀ w, Forall (has_text P) (sources w) → run P w events = Some w' →
                   Forall (has_text P) (sources w')).
  { induction events as [|e rest IH]; intros w Hw Hrun; simpl in Hrun.
    - by injection Hrun as <-.
    - destruct (step P w e) as [w1|] eqn:Hstep; [|done].
      apply (IH w1); [|done]. by apply (step_has_text w w1 e). }
  apply H. constructor.
Qed.

(** ** C1: a new run and the poll of the run before *)



(** What keeps a stale poll out is the button alone.  [runSwarm] itself
    does not look for a run in flight: were it called while a poll is
    suspended (which the component never does, the button being its only
    caller), it would clear the result and the stream reference and leave
    every stream closed, but it would not cancel the poll, whose answer
    [setResp] would then store as the result next to the new submission. *)
Lemma runSwarm_has_no_guard
    (w : World) (h : nat) (url : jsstring) (i : nat) (status : N) (data : json) :
  reachable P w →
  pending w !! h = Some (AwaitPoll url i) →
  blank (task w) = false →
  ok status = true → status ≠ 202%N →
  step P w Click_Run = None
  ∧ ∃ w1 w2,
      step P w Call_runSwarm = Some w1
      ∧ resp w1 = JNull ∧ esRef w1 = None ∧ traces w1 = []
      ∧ all_closed (sources w1)
      ∧ pending w1 !! h = Some (AwaitPoll url i)
      ∧ pending w1 !! spawned w = Some AwaitStart
      ∧ run P w1 [Fetch_settled h (Response status); Json_settled h (JsonValue data)]
          = Some w2
      ∧ resp w2 = data
      ∧ pending w2 !! spawned w = Some AwaitStart.
Proof.
  intros Hreach Hpoll Hblank Hok H202.
  destruct (reachable_phase w Hreach)
    as [Hq Hc | h0 k0 Hq Hh Hc Hl Hs | l s Hq Hsrcs Hc Hopen Hl Hs];
    [by rewrite Hq, lookup_empty in Hpoll| |by rewrite Hq, lookup_empty in Hpoll].
  rewrite Hq in Hpoll. apply lookup_singleton_Some in Hpoll as [-> ->].
  rename h into h0.
  split; [unfold step, Run_disabled; by rewrite Hl|].
  assert (Hne : spawned w ≠ h0) by lia.
  assert (Hrun : ∃ w1, step P w Call_runSwarm = Some w1
            ∧ resp w1 = JNull ∧ esRef w1 = None ∧ traces w1 = []
            ∧ all_closed (sources w1)
            ∧ pending w1 = <[spawned w := AwaitStart]> (pending w)).
  { eexists. split; [reflexivity|]. segments. rewrite Hblank.
    split_goal; split_and!; try done. by apply all_closed_alter. }
  destruct Hrun as (w1 & Hstep1 & Hresp1 & Href1 & Htr1 & Hc1 & Hp1).
  assert (Hpoll1 : pending w1 !! h0 = Some (AwaitPoll url i)).
  { rewrite Hp1, lookup_insert_ne by done. rewrite Hq. apply lookup_singleton_eq. }
  assert (Hnew1 : pending w1 !! spawned w = Some AwaitStart).
  { rewrite Hp1. apply lookup_insert_eq. }
  pose proof (step_poll_success w1 h0 url i status Hpoll1 Hok H202) as Hsucc.
  set (w2 := set_pending _ _) in Hsucc.
  assert (Hbody2 : pending w2 !! h0 = Some AwaitPollBody)
    by (simpl; apply lookup_insert_eq).
  pose proof (step_poll_body w2 h0 data Hbody2) as Hbody.
  set (w3 := set_pending _ _) in Hbody.
  exists w1, w3. split_and!; try done.
  - by rewrite (run_cons _ _ _ _ Hsucc), (run_cons _ _ _ _ Hbody).
  - simpl. rewrite lookup_delete_ne, lookup_insert_ne by done. done.
Qed.

(** * Further properties *)

(** ** The agent roster: addAgent, removeAgent, updateAgent *)

Lemma spread_array_idemp (prev : list slot) :
  spread_array (spread_array prev) = spread_array prev.
Proof.
  unfold spread_array. rewrite <- list_fmap_compose.
  apply list_fmap_ext. by intros _ [] _.
Qed.

Lemma spread_array_insert (prev : list slot) (idx : nat) (a : AgentSpec) :
  spread_array (<[idx := Agent a]> prev) = <[idx := Agent a]> (spread_array prev).
Proof. unfold spread_array. by rewrite list_fmap_insert. Qed.

Lemma updateAgent_inside (prev : list slot) (idx : nat) (patch : AgentPatch) :
  idx < length prev →
  updateAgent idx patch prev
    = <[idx := Agent (merge (spread_slot (prev !! idx)) patch)]> (spread_array prev).
Proof.
  intros Hidx. unfold updateAgent. rewrite spread_slot_spread_array.
  rewrite bool_decide_eq_true_2; [done|].
  unfold spread_array. by rewrite length_fmap.
Qed.

Lemma merge_merge (a : AgentSpec) (p1 p2 : AgentPatch) :
  merge (merge a p1) p2 = merge a (patch_then p1 p2).
Proof.
  destruct a, p1 as [n1 s1 m1], p2 as [n2 s2 m2]. unfold merge, patch_then. simpl.
  by destruct n2, s2, m2.
Qed.

Lemma removeAgent_offset (l : list slot) (idx o : nat) :
  Forall (λ s, s ≠ Hole) l →
  omap id (imap (λ i s, match s with
                        | Hole => None
                        | _ => if bool_decide (o + i = idx) then None else Some s
                        end) l)
  = if bool_decide (idx < o) then l else take (idx - o) l ++ drop (S (idx - o)) l.
Proof.
  intros Hl. revert o. induction Hl as [|s l Hs _ IH]; intros o.
  - simpl. case_bool_decide; [done|]. by rewrite take_nil.
  - rewrite imap_cons. simpl omap.
    rewrite (imap_ext _ (λ i s0, match s0 with
                                 | Hole => None
                                 | _ => if bool_decide (S o + i = idx) then None else Some s0
                                 end) l).
    2:{ intros i x _. simpl. destruct x; try done;
        by replace (o + S i) with (S (o + i)) by lia. }
    pose proof (IH (S o)) as IH'. unfold omap in IH'. rewrite IH'.
    replace (o + 0) with o by lia.
    destruct s; [done|..]; simpl;
      repeat case_bool_decide; try lia; subst;
      rewrite ?Nat.sub_diag; simpl; rewrite ?drop_0; try done;
      (replace (idx - o) with (S (idx - S o)) by lia; done).
Qed.

(** X1. On an array without holes, [removeAgent] takes out exactly the
    element at [idx] and keeps the others in order; an index past the end
    removes nothing. *)
Theorem removeAgent_removes_one (prev : list slot) (idx : nat) :
  Forall (λ s, s ≠ Hole) prev →
  removeAgent idx prev = take idx prev ++ drop (S idx) prev
  ∧ (length prev ≤ idx → removeAgent idx prev = prev)
  ∧ (idx < length prev → S (length (removeAgent idx prev)) = length prev).
Proof.
  intros Hl.
  assert (H : removeAgent idx prev = take idx prev ++ drop (S idx) prev).
  { unfold removeAgent.
    rewrite (imap_ext _ (λ i s, match s with
                                | Hole => None
                                | _ => if bool_decide (0 + i = idx) then None else Some s
                                end) prev) by done.
    rewrite (removeAgent_offset prev idx 0 Hl).
    rewrite bool_decide_eq_false_2 by lia. by rewrite Nat.sub_0_r. }
  split; [done|]. split.
  - intros Hidx. rewrite H, take_ge, drop_ge by lia. by rewrite app_nil_r.
  - intros Hidx. rewrite H, length_app, length_take, length_drop. lia.
Qed.

(** X2. Adding an agent and then removing the last element gives the
    roster back (on an array without holes). *)
Theorem removeAgent_addAgent (prev : list slot) :
  Forall (λ s, s ≠ Hole) prev →
  removeAgent (length prev) (addAgent prev) = prev.
Proof.
  intros Hl. unfold addAgent. rewrite (spread_array_no_hole prev Hl).
  set (new := Agent _).
  assert (Hnew : Forall (λ s, s ≠ Hole) (prev ++ [new])).
  { apply Forall_app. split; [done|]. by repeat constructor. }
  destruct (removeAgent_removes_one (prev ++ [new]) (length prev) Hnew) as [-> _].
  rewrite take_app_length.
  rewrite drop_app_ge by lia.
  replace (S (length prev) - length prev) with 1 by lia. simpl.
  by rewrite app_nil_r.
Qed.

(** X3. Two edits of the same agent amount to one edit with both patches,
    the later value winning where both set a field; edits of different
    agents can be made in either order. *)
Theorem updateAgent_composes
    (prev : list slot) (i j : nat) (p q : AgentPatch) :
  i < length prev → j < length prev →
  updateAgent i q (updateAgent i p prev) = updateAgent i (patch_then p q) prev
  ∧ (i ≠ j →
     updateAgent i p (updateAgent j q prev) = updateAgent j q (updateAgent i p prev)).
Proof.
  intros Hi Hj.
  assert (Hlen : ∀ k r, length (updateAgent k r prev) = length prev ∨ length prev ≤ k).
  { intros k r. destruct (decide (k < length prev)) as [Hk|Hk]; [left|right; lia].
    rewrite updateAgent_inside by done. rewrite length_insert.
    unfold spread_array. by rewrite length_fmap. }
  assert (Hspread : length (spread_array prev) = length prev)
    by (unfold spread_array; by rewrite length_fmap).
  split.
  - rewrite (updateAgent_inside prev i p Hi).
    rewrite updateAgent_inside by (rewrite length_insert; lia).
    rewrite spread_array_insert, spread_array_idemp, list_insert_insert_eq.
    rewrite list_lookup_insert_eq by lia. simpl.
    rewrite merge_merge. by rewrite updateAgent_inside.
  - intros Hne.
    rewrite (updateAgent_inside prev j q Hj), (updateAgent_inside prev i p Hi).
    rewrite !updateAgent_inside by (rewrite length_insert; lia).
    rewrite !spread_array_insert, !spread_array_idemp.
    rewrite !list_lookup_insert_ne by done.
    rewrite !spread_slot_spread_array.
    by apply list_insert_insert_ne.
Qed.

Lemma removeAgent_skips_holes (l : list slot) (idx o : nat) :
  o + length l ≤ idx →
  omap id (imap (λ i s, match s with
                        | Hole => None
                        | _ => if bool_decide (o + i = idx) then None else Some s
                        end) l)
  = omap (λ s, match s with Hole => None | _ => Some s end) l.
Proof.
  revert o. induction l as [|s l IH]; intros o Hidx; [done|].
  rewrite imap_cons.
  rewrite (imap_ext _ (λ i s0, match s0 with
                               | Hole => None
                               | _ => if bool_decide (S o + i = idx) then None else Some s0
                               end) l).
  2:{ intros i x _. simpl. destruct x; try done;
      by replace (o + S i) with (S (o + i)) by lia. }
  simpl in Hidx. pose proof (IH (S o) ltac:(lia)) as IH'. unfold omap in *.
  simpl in IH'.
  destruct s; simpl; rewrite ?(bool_decide_eq_false_2 (o + 0 = idx)) by lia;
    simpl; by rewrite IH'.
Qed.

Lemma omap_spread_array (prev : list slot) :
  omap (λ s, match s with Hole => None | _ => Some s end) (spread_array prev)
  = spread_array prev.
Proof.
  induction prev as [|s l IH]; [done|].
  unfold spread_array, omap in *. rewrite fmap_cons.
  destruct s; simpl; by rewrite IH.
Qed.

Lemma omap_holes (n : nat) :
  omap (λ s, match s with Hole => None | _ => Some s end) (replicate n Hole) = [].
Proof. unfold omap. induction n as [|n IH]; [done|]. simpl. exact IH. Qed.

(** X4. An edit past the end of the array grows it to [idx + 1] elements:
    the old elements, then holes, then an agent made of the patch alone.
    A later [removeAgent] with an index past the end is then no no-op: the
    [filter] it uses drops the holes. *)
Theorem updateAgent_past_end (prev : list slot) (idx : nat) (patch : AgentPatch) :
  length prev ≤ idx →
  let next := updateAgent idx patch prev in
  length next = S idx
  ∧ take (length prev) next = spread_array prev
  ∧ (∀ j, length prev ≤ j < idx → next !! j = Some Hole)
  ∧ next !! idx = Some (Agent (merge empty_object patch))
  ∧ removeAgent (S idx) next = spread_array prev ++ [Agent (merge empty_object patch)].
Proof.
  intros Hidx next.
  assert (Hlen : length (spread_array prev) = length prev)
    by (unfold spread_array; apply length_fmap).
  assert (Hnext : next = spread_array prev ++ replicate (idx - length prev) Hole
                           ++ [Agent (merge empty_object patch)]).
  { unfold next, updateAgent. rewrite bool_decide_eq_false_2 by lia.
    rewrite Hlen. do 3 f_equal.
    rewrite lookup_ge_None_2 by lia. done. }
  split_and!.
  - rewrite Hnext, !length_app, length_replicate, Hlen. simpl. lia.
  - rewrite Hnext, <- Hlen. apply take_app_length.
  - intros j Hj. rewrite Hnext, lookup_app_r by lia.
    rewrite lookup_app_l by (rewrite length_replicate; lia).
    apply lookup_replicate_2. lia.
  - rewrite Hnext, lookup_app_r by lia. rewrite lookup_app_r
      by (rewrite length_replicate; lia).
    rewrite length_replicate, Hlen.
    by replace (idx - length prev - (idx - length prev)) with 0 by lia.
  - unfold removeAgent.
    rewrite (imap_ext _ (λ i s, match s with
                                | Hole => None
                                | _ => if bool_decide (0 + i = S idx) then None else Some s
                                end) next) by done.
    rewrite removeAgent_skips_holes.
    + rewrite Hnext, !omap_app, omap_spread_array, omap_holes. done.
    + rewrite Hnext, !length_app, length_replicate, Hlen. simpl. lia.
Qed.

(** X5. [addAgent] names the new agent after the length of the array.  So
    after an agent has been added, an earlier one removed and another one
    added, the last two agents carry the same name. *)
Theorem addAgent_reuses_name (prev : list slot) (idx : nat) :
  Forall (λ s, is_agent s = true) prev → idx < length prev →
  let roster := addAgent (removeAgent idx (addAgent prev)) in
  ∃ a b,
    roster !! (length prev - 1) = Some (Agent a)
    ∧ roster !! length prev = Some (Agent b)
    ∧ name a = name b
    ∧ name b = Some (js "agent_" ++ dec (N.of_nat (length prev + 1))).
Proof.
  intros Hprev Hidx roster.
  assert (Hno : Forall (λ s, s ≠ Hole) prev).
  { eapply Forall_impl; [exact Hprev|]. by intros []. }
  set (new := {| name := Some (js "agent_" ++ dec (N.of_nat (length prev + 1)));
                 system_prompt := Some (js "You are a helpful specialist...");
                 model := None |}).
  assert (Hadd : addAgent prev = prev ++ [Agent new]).
  { unfold addAgent. by rewrite (spread_array_no_hole prev Hno). }
  assert (Hno2 : Forall (λ s, s ≠ Hole) (prev ++ [Agent new])).
  { apply Forall_app. split; [done|]. by repeat constructor. }
  destruct (removeAgent_removes_one (prev ++ [Agent new]) idx Hno2) as (Hrem & _ & Hlen).
  rewrite <- Hadd in Hrem, Hlen.
  assert (Hlen' : length (removeAgent idx (addAgent prev)) = length prev).
  { assert (Hl : length (addAgent prev) = S (length prev))
      by (rewrite Hadd, length_app; simpl; lia).
    rewrite Hl in Hlen. specialize (Hlen ltac:(lia)). lia. }
  assert (Hno3 : Forall (λ s, s ≠ Hole) (removeAgent idx (addAgent prev))).
  { rewrite Hrem, Hadd. apply Forall_app.
    split; [by apply Forall_take | by apply Forall_drop]. }
  assert (Hlast : removeAgent idx (addAgent prev) !! (length prev - 1) = Some (Agent new)).
  { rewrite Hrem, Hadd. rewrite lookup_app_r by (rewrite length_take; lia).
    rewrite length_take, length_app. simpl.
    rewrite lookup_drop, lookup_app_r by lia.
    replace (S idx + (length prev - 1 - idx `min` (length prev + 1)) - length prev)
      with 0 by lia. done. }
  exists new, new. unfold roster.
  set (r := removeAgent idx (addAgent prev)) in *. unfold addAgent.
  rewrite (spread_array_no_hole r Hno3), Hlen'.
  split_and!; try done.
  - rewrite lookup_app_l by lia. exact Hlast.
  - rewrite lookup_app_r by lia. rewrite Hlen'.
    by replace (length prev - length prev) with 0 by lia.
Qed.

Lemma step_agents_frame (w w' : World) (e : Event) :
  step P w e = Some w' →
  match e with
  | Update_agent idx patch => agents w' = updateAgent idx patch (agents w)
  | Add_agent => agents w' = addAgent (agents w)
  | Remove_agent idx => agents w' = removeAgent idx (agents w)
  | _ => agents w' = agents w
  end.
Proof.
  intros H. destruct e; unfold step in H; segments_in H;
    split_matches H; try discriminate H; injection H as H; subst w'; done.
Qed.

(** X6. The roster holds agent objects only, neither holes nor undefined
    elements, as long as every edit addresses an agent that is there: every
    event of the component keeps this. *)
Theorem roster_holds_agents (w w' : World) (e : Event) :
  Forall (λ s, is_agent s = true) (agents w) →
  (∀ idx patch, e = Update_agent idx patch → idx < length (agents w)) →
  step P w e = Some w' →
  Forall (λ s, is_agent s = true) (agents w').
Proof.
  intros Hw Hidx Hstep. pose proof (step_agents_frame w w' e Hstep) as Hframe.
  assert (Hno : Forall (λ s, s ≠ Hole) (agents w)).
  { eapply Forall_impl; [exact Hw|]. by intros []. }
  destruct e; try (by rewrite Hframe).
  - rewrite Hframe, updateAgent_inside by (by eapply Hidx).
    rewrite (spread_array_no_hole _ Hno). by apply Forall_insert.
  - rewrite Hframe. unfold addAgent. rewrite (spread_array_no_hole _ Hno).
    apply Forall_app. split; [done|]. by repeat constructor.
  - rewrite Hframe. destruct (removeAgent_removes_one (agents w) idx Hno) as [-> _].
    apply Forall_app. split; [by apply Forall_take | by apply Forall_drop].
Qed.

(** ** buildUrl beyond the default base, and the task that is submitted *)

Lemma strip_leading_slashes_run (k : nat) (path : jsstring) :
  strip_leading_slashes (replicate k slash ++ path) = strip_leading_slashes path.
Proof.
  induction k as [|k IH]; [done|]. simpl. exact IH.
Qed.

Lemma strip_leading_slashes_id (path : jsstring) :
  head path ≠ Some slash → strip_leading_slashes path = path.
Proof.
  destruct path as [|c r]; [done|]. simpl. intros H.
  rewrite bool_decide_eq_false_2; [done|]. congruence.
Qed.

Lemma head_reverse_last (s : jsstring) : head (reverse s) = last s.
Proof.
  induction s as [|c r IH] using rev_ind; [done|].
  by rewrite reverse_snoc, last_snoc.
Qed.

(** X7. [buildUrl] does not depend on leading slashes of the path: a path
    written [api/x], [/api/x] or [//api/x] gives the same URL, for every
    base; and the base the component uses is never empty, since an unset or
    empty VITE_API_BASE is replaced by ["/"]. *)
Theorem buildUrl_ignores_leading_slashes (base path : jsstring) (k : nat) :
  buildUrl_from P base (replicate k slash ++ path) = buildUrl_from P base path
  ∧ buildUrl P (replicate k slash ++ path) = buildUrl P path
  ∧ apiBase P ≠ [].
Proof.
  split_and!.
  - unfold buildUrl_from. by rewrite strip_leading_slashes_run.
  - unfold buildUrl, buildUrl_from. by rewrite strip_leading_slashes_run.
  - unfold apiBase. destruct (VITE_API_BASE P) as [[|c s]|]; done.
Qed.

(** X8. When the base is neither empty nor ["/"] and the URL constructor
    rejects it, [buildUrl] falls back to concatenation: a base that ends in
    slashes contributes exactly one slash before the path, and a base that
    does not end in a slash is joined to the path with no slash between
    them. *)
Theorem buildUrl_fallback (base path : jsstring) :
  base ≠ [] → base ≠ js "/" →
  URL_href P (strip_leading_slashes path) base = None →
  (last base ≠ Some slash →
     buildUrl_from P base path = base ++ strip_leading_slashes path)
  ∧ (∀ stem n, base = stem ++ replicate (S n) slash → last stem ≠ Some slash →
       buildUrl_from P base path = stem ++ slash :: strip_leading_slashes path).
Proof.
  intros Hne Hroot Hurl.
  assert (Hfall : buildUrl_from P base path
                  = collapse_trailing_slashes base ++ strip_leading_slashes path).
  { unfold buildUrl_from. rewrite !bool_decide_eq_false_2 by done. simpl.
    by rewrite Hurl. }
  split.
  - intros Hlast. rewrite Hfall. f_equal. unfold collapse_trailing_slashes.
    rewrite <- head_reverse_last in Hlast.
    destruct (reverse base) as [|c r] eqn:Hrev.
    + apply (f_equal reverse) in Hrev. rewrite reverse_involutive in Hrev. done.
    + simpl in Hlast. rewrite bool_decide_eq_false_2; [done|]. congruence.
  - intros stem n -> Hstem. rewrite Hfall.
    change (stem ++ slash :: strip_leading_slashes path)
      with (stem ++ [slash] ++ strip_leading_slashes path).
    rewrite (app_assoc stem [slash]). f_equal.
    unfold collapse_trailing_slashes.
    rewrite reverse_app, reverse_replicate. simpl.
    rewrite strip_leading_slashes_run.
    rewrite strip_leading_slashes_id by (by rewrite head_reverse_last).
    by rewrite reverse_involutive.
Qed.

Lemma trimStart_split (s : jsstring) :
  ∃ lead, s = lead ++ trimStart s
          ∧ Forall (λ c, is_whitespace c = true) lead
          ∧ (∀ c, head (trimStart s) = Some c → is_whitespace c = false).
Proof.
  induction s as [|c r (lead & Hr & Hlead & Hhead)]; simpl.
  - exists []. split_and!; [done|constructor|done].
  - destruct (is_whitespace c) eqn:Hc.
    + exists (c :: lead). split_and!; [simpl; by f_equal|by constructor|done].
    + exists []. split_and!; [done|constructor|]. simpl. by intros ? [= <-].
Qed.

Lemma trimEnd_split (s : jsstring) :
  ∃ trail, s = trimEnd s ++ trail
           ∧ Forall (λ c, is_whitespace c = true) trail
           ∧ (∀ c, last (trimEnd s) = Some c → is_whitespace c = false).
Proof.
  unfold trimEnd. destruct (trimStart_split (reverse s)) as (lead & Hs & Hlead & Hhead).
  exists (reverse lead). split_and!.
  - rewrite <- reverse_app, <- Hs. by rewrite reverse_involutive.
  - by apply Forall_reverse.
  - intros c Hc. apply Hhead. by rewrite <- head_reverse_last, reverse_involutive in Hc.
Qed.

Lemma trimEnd_head (s : jsstring) (c : N) :
  head s = Some c → is_whitespace c = false → head (trimEnd s) = Some c.
Proof.
  intros Hhead Hc. destruct (trimEnd_split s) as (trail & Hs & Htrail & _).
  destruct (trimEnd s) as [|d r] eqn:Hend.
  - simpl in Hs. subst s. destruct Htrail as [|d r Hd _]; [done|].
    simpl in Hhead. congruence.
  - rewrite Hs in Hhead. exact Hhead.
Qed.

(** The typed task is its trimmed form between two runs of whitespace. *)
Lemma trim_split (s : jsstring) :
  ∃ lead trail,
    s = lead ++ trim s ++ trail
    ∧ Forall (λ c, is_whitespace c = true) lead
    ∧ Forall (λ c, is_whitespace c = true) trail
    ∧ (∀ c, head (trim s) = Some c → is_whitespace c = false)
    ∧ (∀ c, last (trim s) = Some c → is_whitespace c = false).
Proof.
  destruct (trimStart_split s) as (lead & Hs & Hlead & Hhead).
  destruct (trimEnd_split (trimStart s)) as (trail & Ht & Htrail & Hlast).
  exists lead, trail. unfold trim. split_and!; try done.
  - by rewrite <- Ht.
  - intros c Hc. destruct (trimStart s) as [|d r] eqn:Hstart; [done|].
    assert (Hd : is_whitespace d = false) by (by apply Hhead).
    rewrite (trimEnd_head (d :: r) d) in Hc by done. by injection Hc as <-.
Qed.

Lemma blank_iff (s : jsstring) :
  blank s = true ↔ Forall (λ c, is_whitespace c = true) s.
Proof.
  split; [|apply blank_whitespace].
  unfold blank. intros H. apply orb_true_iff in H as [H|H];
    apply bool_decide_eq_true in H.
  - subst. constructor.
  - destruct (trim_split s) as (lead & trail & Hs & Hlead & Htrail & _).
    rewrite H in Hs. rewrite Hs. apply Forall_app. by split.
Qed.

(** X9. A task with at least one character that is not whitespace is
    submitted: [runSwarm] clears the previous run (error, result, run id,
    trace, stream reference), sets the running flags and issues exactly one
    request, the POST of [api/run/start], whose task is the typed task
    without its leading and trailing whitespace, and suspends on it. *)
Theorem runSwarm_submits_trimmed_task (w : World) :
  Exists (λ c, is_whitespace c = false) (task w) →
  ∃ w' lead trail,
    step P w Call_runSwarm = Some w'
    ∧ requests w'
      = requests w ++ [ POST (buildUrl P (js "api/run/start"))
                          {| payload_task := trim (task w); payload_agents := agents w;
                             payload_settings := settings w |} ]
    ∧ task w = lead ++ trim (task w) ++ trail
    ∧ Forall (λ c, is_whitespace c = true) lead
    ∧ Forall (λ c, is_whitespace c = true) trail
    ∧ (∀ c, head (trim (task w)) = Some c → is_whitespace c = false)
    ∧ (∀ c, last (trim (task w)) = Some c → is_whitespace c = false)
    ∧ trim (task w) ≠ []
    ∧ pending w' = <[spawned w := AwaitStart]> (pending w)
    ∧ loading w' = true ∧ streaming w' = true
    ∧ error w' = None ∧ resp w' = JNull ∧ runId w' = null
    ∧ traces w' = [] ∧ esRef w' = None.
Proof.
  intros Hex.
  assert (Hblank : blank (task w) = false).
  { destruct (blank (task w)) eqn:Hb; [|done].
    apply blank_iff in Hb. apply Exists_exists in Hex as (c & Hin & Hc).
    rewrite Forall_forall in Hb. specialize (Hb c Hin). congruence. }
  destruct (trim_split (task w)) as (lead & trail & Hs & Hlead & Htrail & Hhead & Hlast).
  eexists _, lead, trail. split; [reflexivity|].
  assert (Hne : trim (task w) ≠ []).
  { intros Hnil. unfold blank in Hblank. rewrite Hnil in Hblank.
    rewrite (bool_decide_eq_true_2 ([] = [])) in Hblank by done.
    by rewrite orb_true_r in Hblank. }
  segments. rewrite Hblank. split_goal; split_and!; done.
Qed.

(** ** Failures of the submission and of the poll *)

(** X10. A submission that fails is not retried: when the request is
    rejected, or answered with a status outside 200-299, [runSwarm] shows
    the message (the exception's, [Request failed] when that is empty, or
    [HTTP] and the status), clears the running flags and the stream
    reference and ends; no further request is issued and no stream is
    opened. *)
Theorem submit_failure_is_terminal (w : World) (h : nat) (o : FetchOutcome) :
  pending w !! h = Some AwaitStart →
  (∀ status, o = Response status → ok status = false) →
  ∃ w',
    step P w (Fetch_settled h o) = Some w'
    ∧ error w' = Some (match o with
                       | Rejected message => str_or message (js "Request failed")
                       | Response status => js "HTTP " ++ dec status
                       end)
    ∧ loading w' = false ∧ streaming w' = false ∧ esRef w' = None
    ∧ requests w' = requests w
    ∧ length (sources w') = length (sources w)
    ∧ pending w' = delete h (pending w)
    ∧ resp w' = resp w ∧ traces w' = traces w.
Proof.
  intros H Hbad. eexists. unfold step. rewrite H. split; [reflexivity|].
  destruct o as [m|status]; segments; rewrite ?(Hbad status eq_refl);
    split_goal; split_and!; try done; apply length_alter.
Qed.

(** X11. A poll that fails is fatal: when the request is rejected, or
    answered with a status that is neither 202 nor in 200-299, [fetchFinal]
    throws; the [done] listener shows the message, clears the running flags
    and ends.  No further request is issued, and the result is left as it
    was. *)
Theorem poll_failure_is_fatal
    (w : World) (h : nat) (url : jsstring) (i : nat) (o : FetchOutcome) :
  pending w !! h = Some (AwaitPoll url i) →
  (∀ status, o = Response status → status ≠ 202%N ∧ ok status = false) →
  ∃ w',
    step P w (Fetch_settled h o) = Some w'
    ∧ error w' = Some (match o with
                       | Rejected message =>
                           str_or message (js "Failed to fetch final result")
                       | Response status => js "HTTP " ++ dec status
                       end)
    ∧ loading w' = false ∧ streaming w' = false
    ∧ requests w' = requests w
    ∧ pending w' = delete h (pending w)
    ∧ resp w' = resp w ∧ traces w' = traces w ∧ sources w' = sources w.
Proof.
  intros H Hbad. eexists. unfold step. rewrite H. split; [reflexivity|].
  destruct o as [m|status].
  - segments. split_goal; split_and!; done.
  - destruct (Hbad status eq_refl) as [H202 Hok]. segments.
    rewrite bool_decide_eq_false_2 by done. rewrite Hok.
    split_goal; split_and!; done.
Qed.

(** X12. Whatever resumes the poll of [fetchFinal], it either stays a poll
    and leaves the flags, the error and the result alone, or it ends, and
    then the [finally] block has cleared both running flags: the poll never
    ends with the component still marked as running. *)
Theorem poll_end_clears_flags (w w' : World) (h : nat) (k : Task) (e : Event) :
  pending w !! h = Some k → is_poll k = true →
  resumes e = Some h → step P w e = Some w' →
  match pending w' !! h with
  | Some k' =>
      is_poll k' = true
      ∧ loading w' = loading w ∧ streaming w' = streaming w
      ∧ error w' = error w ∧ resp w' = resp w
  | None => loading w' = false ∧ streaming w' = false
  end.
Proof.
  intros Hk Hpoll He Hstep.
  destruct e; try discriminate He; injection He as ->;
    unfold step in Hstep; rewrite Hk in Hstep;
    destruct k; try discriminate Hpoll; try discriminate Hstep;
    segments_in Hstep; split_matches Hstep; injection Hstep as Hstep; subst w'; simpl;
    rewrite ?lookup_insert_eq, ?lookup_delete_eq; done.
Qed.

(** ** What holds in every state *)

Lemma step_within_budget (w w' : World) (e : Event) :
  within_budget w → step P w e = Some w' → within_budget w'.
Proof.
  unfold within_budget. intros Hw H.
  destruct e; unfold step in H; segments_in H; split_matches H;
    try discriminate H; injection H as H; subst w'; simpl;
    repeat match goal with
           | Hk : pending w !! _ = Some _ |- _ =>
               pose proof (map_Forall_lookup_1 _ _ _ _ Hw Hk); clear Hk
           | Hb : bool_decide _ = true |- _ => apply bool_decide_eq_true in Hb
           end;
    repeat first [ assumption
                 | apply map_Forall_insert_2
                 | apply map_Forall_delete ];
    intros ? [=]; subst; simpl in *;
    repeat match goal with
           | Hn : ∀ n, Some _ = Some n → _ |- _ => specialize (Hn _ eq_refl)
           end;
    lia.
Qed.

(** X13. The poll loop is bounded in every state the component can be in,
    however it got there: a suspended [fetchFinal] has issued at most 120
    requests. *)
Theorem poll_never_exceeds_budget
    (events : list Event) (w : World) (h : nat) (k : Task) (n : nat) :
  run P initial events = Some w →
  pending w !! h = Some k → poll_attempts k = Some n →
  n ≤ 120.
Proof.
  intros Hrun Hk Hn.
  assert (Hw : within_budget w).
  { apply (run_invariant within_budget (λ w e w', step_within_budget w w' e)
             events initial w); [|done].
    unfold within_budget. simpl. apply map_Forall_empty. }
  exact (map_Forall_lookup_1 _ _ _ _ Hw Hk n Hn).
Qed.

Lemma open_sources_closed (l : list EventSource) :
  all_closed l → filter (λ s, closed s = false) l = [].
Proof.
  induction 1 as [|s l Hs _ IH]; [done|].
  rewrite filter_cons. case_decide; [congruence|done].
Qed.

(** X14. When runs are started through the Run button, the component has
    at most one thing in flight: one suspended function (the submission or
    the poll) or one open stream, never two and never both; and while it
    is in flight the Run button is disabled. *)
Theorem single_flight (w : World) :
  reachable P w →
  length (open_sources w) + size (pending w) ≤ 1
  ∧ (length (open_sources w) + size (pending w) = 1 → Run_disabled w = true).
Proof.
  intros Hw. unfold open_sources, Run_disabled.
  destruct (reachable_phase w Hw)
    as [Hq Hc | h k Hq Hh Hc Hl Hs | l s Hq Hsrcs Hc Hopen Hl Hs].
  - rewrite Hq, map_size_empty, (open_sources_closed _ Hc). simpl. split; [lia|done].
  - rewrite Hq, map_size_singleton, (open_sources_closed _ Hc), Hl. simpl.
    split; [lia|done].
  - rewrite Hq, map_size_empty, Hsrcs, filter_app, (open_sources_closed _ Hc), Hl.
    rewrite filter_cons, filter_nil. case_decide; simpl; split; done || lia.
Qed.

Lemma phase_pending_closed (w : World) (h : nat) (k : Task) :
  phase w → pending w !! h = Some k → all_closed (sources w).
Proof.
  intros [Hq Hc | h0 k0 Hq Hh Hc Hl Hs | l s Hq Hsrcs Hc Hopen Hl Hs] Hk; [done..|].
  by rewrite Hq, lookup_empty in Hk.
Qed.

Lemma step_tracked (w w' : World) (e : Event) :
  phase w → tracked w → e ≠ Call_runSwarm → step P w e = Some w' → tracked w'.
Proof.
  intros Hph Htr He H.
  assert (Hclosed : ∀ h k, pending w !! h = Some k → all_closed (sources w))
    by (intros h k; by apply phase_pending_closed).
  destruct e; try done; unfold step in H; segments_in H; split_matches H;
    try discriminate H; injection H as H; subst w';
    intros es0 s0 Hl Ho; simpl in *;
    try (rewrite list_lookup_alter in Hl; case_decide;
         [ subst; destruct (sources w !! _) as [s1|]; [|done];
           simpl in Hl; injection Hl as <-; simpl in Ho; done
         | ]);
    try (apply lookup_snoc_Some in Hl as [[_ Hl]|[-> <-]];
         [ exfalso; eapply all_closed_lookup; [eapply Hclosed| |]; eauto
         | done ]);
    try (by eapply Htr);
    pose proof (Htr _ _ Hl Ho) as Hes; try congruence;
    repeat match goal with
           | Hx : sources w !! ?x = Some ?sx, Hc : closed ?sx = false |- _ =>
               pose proof (Htr _ _ Hx Hc); clear Hx
           end;
    congruence.
Qed.

Lemma reachable_tracked (w : World) : reachable P w → tracked w.
Proof.
  induction 1 as [|w e w' Hw IH He Hstep].
  - intros es s Hs. done.
  - apply (step_tracked w w' e); try done. by apply reachable_phase.
Qed.

(** X15. When runs are started through the Run button, the stream
    reference holds every stream that is open.  So when the component is
    unmounted its cleanup leaves no stream open; what it does not do is
    cancel a submission or a poll in flight, which stay suspended. *)
Theorem unmount_closes_the_stream (w : World) :
  reachable P w →
  tracked w
  ∧ ∃ w', step P w Unmount = Some w'
          ∧ all_closed (sources w')
          ∧ esRef w' = None
          ∧ pending w' = pending w
          ∧ step P w' Unmount = Some w'.
Proof.
  intros Hw. pose proof (reachable_tracked w Hw) as Htr. split; [done|].
  assert (Hall : ∀ o, (∀ es, esRef w = Some es → o = Some es) →
            all_closed (match o with
                        | Some es => alter close_source es (sources w)
                        | None => sources w
                        end)).
  { intros o Ho. apply Forall_lookup. intros i s Hs.
    destruct (closed s) eqn:Hc; [done|]. exfalso.
    destruct o as [es|].
    - rewrite list_lookup_alter in Hs. case_decide as Hi.
      + subst i. destruct (sources w !! es) as [s1|]; [|done].
        injection Hs as <-. done.
      + pose proof (Htr i s Hs Hc) as Href. specialize (Ho i Href). congruence.
    - pose proof (Htr i s Hs Hc) as Href. specialize (Ho i Href). done. }
  eexists. split; [reflexivity|]. unfold step. segments.
  destruct (esRef w) as [es|] eqn:Hes; simpl; split_and!; try done.
  - apply (Hall (Some es)). by intros ? [= ->].
  - apply (Hall None). by intros ? [=].
Qed.

(** X16. The [done] listener closes the stream before it polls, so nothing
    that arrives on that stream afterwards reaches a listener: a stream
    starts [fetchFinal] at most once, also when the server repeats
    [done]. *)
Theorem done_closes_the_stream
    (w w' : World) (es : nat) (s : EventSource) (data : option jsstring) :
  sources w !! es = Some s → closed s = false →
  step P w (Stream_event es (js "done") data) = Some w' →
  sources w' !! es = Some (close_source s)
  ∧ esRef w' = None
  ∧ (∀ name data', step P w' (Stream_event es name data') = None)
  ∧ length (requests w') ≤ S (length (requests w)).
Proof.
  intros Hs Hopen H. unfold step in H. rewrite Hs, Hopen in H.
  rewrite dispatch_done in H. injection H as H. subst w'.
  assert (Hlook : alter close_source es (sources w) !! es = Some (close_source s)).
  { rewrite list_lookup_alter, Hs. by case_decide. }
  set (w' := spawn _ w).
  assert (Hw' : sources w' = alter close_source es (sources w)
                ∧ esRef w' = None
                ∧ length (requests w') ≤ S (length (requests w))).
  { unfold w'. segments. unfold safeParse. destruct (JSON_parse P _);
      split_goal; rewrite ?length_app; simpl; split_and!; try done; lia. }
  destruct Hw' as (Hsrc & Href & Hreq). split_and!; try done.
  - by rewrite Hsrc.
  - intros name data'. unfold step. by rewrite Hsrc, Hlook.

Qed.

(** ** The stream listeners *)

(** X17. A message on an open stream other than [done] is handled by
    appending to the trace: the listeners of its type append their entries
    ([error] reaches the [error] listener and then [onerror]; a type without
    a listener, such as the default [message], appends nothing), and the
    handlers change nothing else.  What the component then does depends on
    the render.  When the new entries render, or the Trace panel is not the
    active one, the error, the result, the running flags, the streams and
    the requests are as they were; a payload that does not decode always
    gives entries that render.  When the Trace panel is active and a field
    of a new entry cannot be rendered (an object as its message, say), the
    component is unmounted and its cleanup closes the stream held in
    [esRef]. *)
Theorem stream_event_only_appends
    (w : World) (es : nat) (s : EventSource) (name : jsstring) (data : option jsstring) :
  sources w !! es = Some s → closed s = false → name ≠ js "done" →
  renders P plus_text w = true →
  ∃ w' fs,
    step P w (Stream_event es name data) = Some w'
    ∧ w' = set_clock (length fs + clock w)
             (set_traces (traces w ++ stamp P (clock w) fs) w)
    ∧ type <$> fs = entry_types name
    ∧ deliver P plus_text w (Stream_event es name data)
      = Some (if render_entries P (activeTab w) fs then Rendered w'
              else Unmounted
                     (set_esRef None
                        (set_sources
                           (match esRef w with
                            | Some r => alter close_source r (sources w)
                            | None => sources w
                            end) w')))
    ∧ (∀ m, JSON_parse P (default (js "undefined") data) = Throw m →
         render_entries P (activeTab w) fs = true).
Proof.
  intros Hs Hopen Hname Hrender.
  assert (Hstep : ∃ w' fs,
            step P w (Stream_event es name data) = Some w'
            ∧ w' = set_clock (length fs + clock w)
                     (set_traces (traces w ++ stamp P (clock w) fs) w)
            ∧ type <$> fs = entry_types name
            ∧ (∀ m, JSON_parse P (default (js "undefined") data) = Throw m →
                 ∀ tab, render_entries P tab fs = true)).
  { unfold step. rewrite Hs, Hopen.
    unfold entry_types. segments. unfold safeParse.
    repeat case_bool_decide; try done;
      repeat match goal with
             | |- context [JSON_parse P ?x] => destruct (JSON_parse P x)
             end;
      simpl;
      first [ eexists _, [_; _]; split; [reflexivity|];
              split; [world_eq; by rewrite <- app_assoc|]; split; [reflexivity|]
            | eexists _, [_]; split; [reflexivity|];
              split; [by world_eq|]; split; [reflexivity|]
            | eexists _, []; split; [reflexivity|];
              split; [world_eq; by rewrite app_nil_r|]; split; [reflexivity|] ];
      intros m Hm tab; first [discriminate Hm | by destruct tab]. }
  destruct Hstep as (w' & fs & Hstep & Hw' & Htypes & Hbad).
  exists w', fs. split_and!; try done; [|by eauto].
  unfold deliver. rewrite Hstep.
  assert (Hr : renders P plus_text w' = render_entries P (activeTab w) fs)
    by (by rewrite Hw', renders_entries, Hrender).
  rewrite Hr. destruct (render_entries P (activeTab w) fs); [done|].
  do 2 f_equal. rewrite Hw'. segments. simpl.
  destruct (esRef w); simpl; by world_eq.
Qed.

Lemma truthy_or_else (a b : jsval) :
  truthy P b = true → truthy P (or_else P a b) = true.
Proof. intros Hb. unfold or_else. by destruct (truthy P a) eqn:Ha. Qed.

Lemma step_labelled (w w' : World) (e : Event) :
  Forall (labelled P) (traces w) → step P w e = Some w' →
  Forall (labelled P) (traces w').
Proof.
  intros Hw H.
  destruct e; unfold step in H; segments_in H; split_matches H;
    try discriminate H; injection H as H; subst w'; simpl;
    repeat (apply Forall_app; split); try done;
    repeat constructor; simpl; try done;
    intros _; by apply truthy_or_else.
Qed.

(** X18. At all times, every [log] entry of the trace has a level and every
    [error] or [client-error] entry a message: the listeners fall back to
    [LOG] and to [server error] when the payload gives none (or gives an
    empty string, null, false or zero). *)
Theorem trace_entries_are_labelled (events : list Event) (w : World) :
  run P initial events = Some w → Forall (labelled P) (traces w).
Proof.
  intros Hrun.
  apply (run_invariant (λ w, Forall (labelled P) (traces w))
           (λ w e w', step_labelled w w' e) events initial w); [constructor|done].
Qed.

(** ** What is shown, and where requests go *)

Lemma phase_open_loading (w : World) (es : nat) (s : EventSource) :
  phase w → sources w !! es = Some s → closed s = false → loading w = true.
Proof.
  intros [Hq Hc | h0 k0 Hq Hh Hc Hl Hs | l s0 Hq Hsrcs Hc Hopen Hl Hs] Hes Ho; try done;
    destruct (all_closed_lookup _ _ _ Hc Hes Ho).
Qed.

Lemma step_shown (w w' : World) (e : Event) :
  phase w → shown w → e ≠ Call_runSwarm → step P w e = Some w' → shown w'.
Proof.
  intros Hph [J1 J2] He H.
  assert (Hpl : ∀ h k, pending w !! h = Some k → loading w = true)
    by (intros h k; by apply phase_pending_loading).
  assert (Hol : ∀ es s, sources w !! es = Some s → closed s = false → loading w = true)
    by (intros es s; by apply phase_open_loading).
  destruct e; try done; unfold step in H; segments_in H; split_matches H;
    try discriminate H; injection H as H; subst w';
    (split; simpl;
     [ intros Hl';
       first [ discriminate Hl'
             | exact (J1 Hl')
             | done
             | exfalso; unfold Run_disabled in *; destruct (loading w);
               simpl in *; congruence ]
     | first [ exact J2
             | by left
             | by right; right
             | assert (Hlw : loading w = true) by eauto;
               destruct (J1 Hlw) as [He0 Hr0]; first [by left | by right; left] ] ]).
Qed.

(** X19. When runs are started through the Run button: while the component
    is marked as loading it shows neither an error nor a result; and it
    never shows a result together with the failure of a run - the only
    message that can stand next to a result is the request to enter a
    task. *)
Theorem result_and_failure_exclude (w : World) :
  reachable P w →
  (loading w = true → error w = None ∧ resp w = JNull)
  ∧ (resp w = JNull ∨ error w = None
     ∨ error w = Some (js "Please enter a task before running the swarm.")).
Proof.
  induction 1 as [|w e w' Hw IH He Hstep].
  - split; [done|by left].
  - apply (step_shown w w' e); try done. by apply reachable_phase.
Qed.

(** X20. A click on Clear touches nothing but the trace.  It is always
    handled and empties the trace; and whatever event comes next, it is
    handled after the click exactly when it is handled without it, and it
    leads to the same state, except that the trace holds only the entries
    appended since the click. *)
Theorem clear_commutes (w : World) (e : Event) :
  step P w Click_Clear = Some (set_traces [] w)
  ∧ match step P w e with
    | Some w1 =>
        step P (set_traces [] w) e
          = Some (set_traces (drop (length (traces w)) (traces w1)) w1)
    | None => step P (set_traces [] w) e = None
    end.
Proof.
  split; [reflexivity|].
  destruct (step P w e) as [w1|] eqn:H.
  - destruct e; unfold step, Run_disabled in *; segments_in H; segments; simpl;
      split_matches H; try discriminate H; injection H as H; subst w1; simpl;
      repeat match goal with
             | Heq : ?x = _ |- context [?x] => rewrite Heq; simpl
             end;
      f_equal; world_eq;
      rewrite <- ?app_assoc, ?drop_app_length, ?drop_all, ?drop_nil; done.
  - destruct e; unfold step, Run_disabled in *; simpl;
      split_matches H; try discriminate H;
      repeat match goal with
             | Heq : ?x = _ |- context [?x] => rewrite Heq; simpl
             end;
      done.
Qed.

Lemma step_on_the_wire (w w' : World) (e : Event) :
  on_the_wire P w → step P w e = Some w' → on_the_wire P w'.
Proof.
  unfold on_the_wire. intros [Hr Hp] H.
  destruct e; unfold step in H; segments_in H; split_matches H;
    try discriminate H; injection H as H; subst w'; simpl;
    repeat match goal with
           | Hk : pending w !! _ = Some _ |- _ =>
               pose proof (map_Forall_lookup_1 _ _ _ _ Hp Hk); clear Hk
           end;
    (split;
     [ repeat first [ assumption
                    | apply Forall_app; split
                    | apply Forall_cons; split
                    | apply Forall_nil_2 ];
       simpl; first [ reflexivity | eauto ]
     | repeat first [ assumption
                    | apply map_Forall_insert_2
                    | apply map_Forall_delete ];
       intros ? [=]; subst; eauto ]).
Qed.

(** X21. The component talks to two endpoints only, whatever happens to it:
    every request it has issued is the submission to [api/run/start] or asks
    a result URL [api/result/<id>]. *)
Theorem requests_go_to_known_endpoints
    (events : list Event) (w : World) (r : Request) :
  run P initial events = Some w → r ∈ requests w → known_endpoint P r.
Proof.
  intros Hrun Hr.
  assert (Hw : on_the_wire P w).
  { apply (run_invariant (on_the_wire P) (λ w e w', step_on_the_wire w w' e)
             events initial w); [|done].
    split; simpl; [apply Forall_nil_2 | apply map_Forall_empty]. }
  destruct Hw as [Hw _]. by apply (proj1 (Forall_forall _ _) Hw).
Qed.

Lemma named_close (s : EventSource) : named P s → named P (close_source s).
Proof. by destruct s. Qed.

Lemma step_named (w w' : World) (e : Event) :
  Forall (named P) (sources w) → step P w e = Some w' →
  Forall (named P) (sources w').
Proof.
  intros Hs H.
  destruct e; unfold step in H; segments_in H; split_matches H;
    try discriminate H; injection H as H; subst w'; simpl;
    repeat first [ assumption
                 | apply Forall_alter; [|intros; by apply named_close]
                 | apply Forall_app; split
                 | apply Forall_cons; split
                 | apply Forall_nil_2 ];
    unfold named, stream_url; simpl; eauto.
Qed.

(** X22. Every stream the component has ever opened, in any run, listens at
    the stream URL [api/stream/<id>] of the text of the [run_id] its
    listeners close over. *)
Theorem streams_are_named
    (events : list Event) (w : World) (es : nat) (s : EventSource) :
  run P initial events = Some w → sources w !! es = Some s →
  ∃ id_text, toString P (es_run_id s) = Normal id_text
             ∧ es_url s = stream_url P id_text.
Proof.
  intros Hrun Hs.
  assert (Hw : Forall (named P) (sources w)).
  { apply (run_invariant (λ w, Forall (named P) (sources w))
             (λ w e w', step_named w w' e) events initial w); [|done].
    apply Forall_nil_2. }
  exact (proj1 (Forall_lookup _ _) Hw es s Hs).
Qed.


(** ** tokenSummary *)

Lemma nullish_not_truthy (v : jsval) : nullish v = true → truthy P v = false.
Proof. by destruct v as [[]|]. Qed.

Lemma coalesce_nullish (a b : jsval) :
  nullish (coalesce a b) = nullish a && nullish b.
Proof. unfold coalesce. by destruct (nullish a) eqn:Ha. Qed.

(** X23. [tokenSummary] returns null in exactly two cases: the usage object
    is missing (or otherwise falsy), or none of its eight token fields
    holds a value. *)
Theorem tokenSummary_null_iff (usage : jsval) :
  tokenSummary P plus_text usage = Normal None
  ↔ truthy P usage = false
    ∨ forallb (λ k, nullish (get usage k))
        ["inputTokens"; "input_tokens"; "prompt_tokens";
         "outputTokens"; "output_tokens"; "completion_tokens";
         "totalTokens"; "total_tokens"]%string = true.
Proof.
  unfold tokenSummary, forallb.
  destruct (truthy P usage) eqn:Hu; simpl; [|by split; [left|]].
  set (it := coalesce (coalesce (get usage "inputTokens") (get usage "input_tokens"))
               (get usage "prompt_tokens")).
  set (ot := coalesce (coalesce (get usage "outputTokens") (get usage "output_tokens"))
               (get usage "completion_tokens")).
  set (given := coalesce (get usage "totalTokens") (get usage "total_tokens")).
  assert (Hit : nullish it = nullish (get usage "inputTokens")
                  && nullish (get usage "input_tokens")
                  && nullish (get usage "prompt_tokens"))
    by (unfold it; by rewrite !coalesce_nullish).
  assert (Hot : nullish ot = nullish (get usage "outputTokens")
                  && nullish (get usage "output_tokens")
                  && nullish (get usage "completion_tokens"))
    by (unfold ot; by rewrite !coalesce_nullish).
  assert (Hgiven : nullish given = nullish (get usage "totalTokens")
                     && nullish (get usage "total_tokens"))
    by (unfold given; by rewrite !coalesce_nullish).
  rewrite !andb_true_r.
  replace (nullish (get usage "inputTokens") &&
           (nullish (get usage "input_tokens") &&
            (nullish (get usage "prompt_tokens") &&
             (nullish (get usage "outputTokens") &&
              (nullish (get usage "output_tokens") &&
               (nullish (get usage "completion_tokens") &&
                (nullish (get usage "totalTokens") &&
                 nullish (get usage "total_tokens"))))))))
    with (nullish it && (nullish ot && nullish given))
    by (rewrite Hit, Hot, Hgiven;
        repeat match goal with |- context [nullish ?v] =>
                 destruct (nullish v); simpl; try reflexivity end).
  clear Hit Hot Hgiven.
  destruct (nullish given) eqn:Hg; simpl.
  - destruct (nullish it) eqn:Hi, (nullish ot) eqn:Ho; simpl.
    + rewrite (nullish_not_truthy it Hi).
      destruct it, ot; simpl; by split; [right|].
    + rewrite (nullish_not_truthy it Hi).
      split; [|by intros [|]].
      destruct it, ot; simpl;
        repeat match goal with |- context [toString P ?v] =>
                 destruct (toString P v) end; done.
    + rewrite (nullish_not_truthy ot Ho), andb_false_r.
      split; [|by intros [|]].
      destruct it, ot; simpl;
        repeat match goal with |- context [toString P ?v] =>
                 destruct (toString P v) end; done.
    + split; [|by intros [|]].
      destruct it as [a|], ot as [b|]; try done.
      destruct (truthy P (Some a) && truthy P (Some b)).
      * by destruct (plus_text a b).
      * simpl.
        repeat match goal with |- context [toString P ?v] =>
                 destruct (toString P v) end; done.
  - rewrite !andb_false_r. split; [|by intros [|]].
    by destruct (toString P given).
Qed.

(** X24. A count of zero hides the total: when no total is given and one of
    the two counts is present but falsy, as the number 0 is, the sum is not
    computed, and the summary shows the two counts, [?] standing for a
    missing one. *)
Theorem tokenSummary_zero_count (usage : jsval) (i o : jsstring) :
  let it := coalesce (coalesce (get usage "inputTokens") (get usage "input_tokens"))
              (get usage "prompt_tokens") in
  let ot := coalesce (coalesce (get usage "outputTokens") (get usage "output_tokens"))
              (get usage "completion_tokens") in
  truthy P usage = true →
  nullish (coalesce (get usage "totalTokens") (get usage "total_tokens")) = true →
  truthy P it && truthy P ot = false →
  nullish it && nullish ot = false →
  toString P (coalesce it (str "?")) = Normal i →
  toString P (coalesce ot (str "?")) = Normal o →
  tokenSummary P plus_text usage = Normal (Some (js "in " ++ i ++ js "/out " ++ o)).
Proof.
  intros it ot Hu Hg Hz Hn Hi Ho. unfold tokenSummary.
  fold it ot. rewrite Hu, Hg. simpl. rewrite Hz.
  apply andb_false_iff in Hn.
  replace (negb (nullish it) || negb (nullish ot)) with true
    by (destruct Hn as [-> | ->]; simpl; by rewrite ?orb_true_r).
  rewrite Hi, Ho.
  by destruct it, ot.
Qed.

(** X25. What [tokenSummary] returns is never an empty text: it is null, or
    the total after [tok ], or the two counts after [in ] and [/out ]. *)
Theorem tokenSummary_shape (usage : jsval) (text : jsstring) :
  tokenSummary P plus_text usage = Normal (Some text) →
  (∃ total, text = js "tok " ++ total)
  ∨ (∃ i o, text = js "in " ++ i ++ js "/out " ++ o).
Proof.
  unfold tokenSummary. intros H.
  destruct (negb (truthy P usage)); [done|].
  match type of H with
  | match ?shown with _ => _ end = _ => destruct shown as [[t|]|]; [|done|]
  end.
  - injection H as <-. eauto.
  - destruct (_ || _); [|done].
    destruct (toString P _) as [i|]; [|done].
    destruct (toString P _) as [o|]; [|done].
    injection H as <-. eauto.
Qed.



End Properties.

(** * The properties on the sample host *)

Lemma updateAgent_frame_witness :
  1 < length DEFAULT_AGENTS
  ∧ ∃ b, updateAgent 1 rename_writer DEFAULT_AGENTS !! 1 = Some (Agent b)
         ∧ name b = Some (js "writer")
         ∧ system_prompt b = Some (js "You are a coding specialist...")
         ∧ length (updateAgent 1 rename_writer DEFAULT_AGENTS) = 4.
Proof.
  assert (H : 1 < length DEFAULT_AGENTS) by (simpl; lia).
  split; [exact H|].
  destruct (updateAgent_frame DEFAULT_AGENTS 1 rename_writer H)
    as (b & Hlen & Hb & Hold & _).
  exists b. split; [exact Hb|].
  destruct (Hold {| name := Some (js "coder");
                    system_prompt := Some (js "You are a coding specialist...");
                    model := None |} eq_refl) as (Hn & Hs & _).
  split; [exact Hn|]. split; [exact Hs | exact Hlen].
Defined.

Lemma runSwarm_rejects_blank_task_witness :
  Forall (λ c, is_whitespace c = true) (task (set_task (js "   ") initial))
  ∧ requests (set_error (Some (js "Please enter a task before running the swarm."))
                (set_task (js "   ") initial)) = [].
Proof.
  assert (H : Forall (λ c, is_whitespace c = true) (task (set_task (js "   ") initial)))
    by (repeat constructor).
  split; [exact H|].
  apply (runSwarm_rejects_blank_task browser (set_task (js "   ") initial) H).
Defined.

Lemma fetchFinal_third_attempt_succeeds_witness :
  sources streaming_r1 !! 0 = Some stream_r1
  ∧ closed stream_r1 = false
  ∧ toString browser (es_run_id stream_r1) = Normal (js "r1")
  ∧ ok 200 = true
  ∧ 200%N ≠ 202%N
  ∧ ∃ w', run browser streaming_r1
            [ done_r1;
              Fetch_settled 1 (Response 202); Timer_fired 1;
              Fetch_settled 1 (Response 202); Timer_fired 1;
              Fetch_settled 1 (Response 200); Json_settled 1 (JsonValue result_r1) ]
          = Some w'
        ∧ resp w' = result_r1.
Proof.
  assert (Hs : sources streaming_r1 !! 0 = Some stream_r1) by (vm_compute; reflexivity).
  assert (Hopen : closed stream_r1 = false) by reflexivity.
  assert (Hid : toString browser (es_run_id stream_r1) = Normal (js "r1")) by reflexivity.
  assert (Hok : ok 200 = true) by reflexivity.
  assert (H202 : 200%N ≠ 202%N) by discriminate.
  split_and!; try done.
  destruct (fetchFinal_third_attempt_succeeds browser streaming_r1 0 stream_r1
              (Some (json_text "{'status': 'COMPLETED', 'has_output': true}"))
              (js "r1") 200 result_r1 Hs Hopen Hid Hok H202)
    as (w' & Hrun & _ & Hresp & _).
  exists w'. split; [exact Hrun | exact Hresp].
Defined.

Lemma fetchFinal_times_out_witness :
  sources streaming_r1 !! 0 = Some stream_r1
  ∧ closed stream_r1 = false
  ∧ toString browser (es_run_id stream_r1) = Normal (js "r1")
  ∧ ∃ w', run browser streaming_r1
            (done_r1 :: concat (replicate 120 [Fetch_settled 1 (Response 202); Timer_fired 1]))
          = Some w'
        ∧ error w' = Some (js "Timed out waiting for result").
Proof.
  assert (Hs : sources streaming_r1 !! 0 = Some stream_r1) by (vm_compute; reflexivity).
  assert (Hopen : closed stream_r1 = false) by reflexivity.
  assert (Hid : toString browser (es_run_id stream_r1) = Normal (js "r1")) by reflexivity.
  split_and!; try done.
  destruct (fetchFinal_times_out browser streaming_r1 0 stream_r1
              (Some (json_text "{'status': 'COMPLETED', 'has_output': true}"))
              (js "r1") Hs Hopen Hid) as (w' & Hrun & Herr & _).
  exists w'. split; [exact Hrun | exact Herr].
Defined.

Lemma malformed_payload_is_absorbed_witness :
  sources streaming_r1 !! 0 = Some stream_r1
  ∧ closed stream_r1 = false
  ∧ toString browser (es_run_id stream_r1) = Normal (js "r1")
  ∧ JSON_parse browser (default (js "undefined") (Some (js "{oops")))
      = Throw (js "Unexpected token in JSON")
  ∧ js "log" ∈ [js "start"; js "log"; js "error"; js "done"; js "summary"]
  ∧ ∃ w', step browser streaming_r1 (Stream_event 0 (js "log") (Some (js "{oops"))) = Some w'
        ∧ error w' = error streaming_r1.
Proof.
  assert (Hs : sources streaming_r1 !! 0 = Some stream_r1) by (vm_compute; reflexivity).
  assert (Hopen : closed stream_r1 = false) by reflexivity.
  assert (Hid : toString browser (es_run_id stream_r1) = Normal (js "r1")) by reflexivity.
  assert (Hbad : JSON_parse browser (default (js "undefined") (Some (js "{oops")))
                 = Throw (js "Unexpected token in JSON")) by (vm_compute; reflexivity).
  assert (Hname : js "log" ∈ [js "start"; js "log"; js "error"; js "done"; js "summary"])
    by (apply elem_of_cons; right; apply elem_of_cons; by left).
  split_and!; try done.
  destruct (malformed_payload_is_absorbed browser streaming_r1 0 stream_r1 (js "r1")
              (js "log") (Some (js "{oops")) _ Hs Hopen Hid Hbad Hname)
    as (w' & Hstep & _ & Herr & _).
  exists w'. split; [exact Hstep | exact Herr].
Defined.

Lemma trace_follows_arrivals_witness :
  run browser streaming_r1 progress_r1 = Some after_progress_r1
  ∧ Forall (λ e, empties_trace e = false) progress_r1
  ∧ ∃ fs, traces after_progress_r1
          = traces streaming_r1 ++ stamp browser (clock streaming_r1) fs.
Proof.
  assert (Hrun : run browser streaming_r1 progress_r1 = Some after_progress_r1)
    by (vm_compute; reflexivity).
  assert (Hev : Forall (λ e, empties_trace e = false) progress_r1) by (repeat constructor).
  split; [exact Hrun|]. split; [exact Hev|].
  destruct (trace_follows_arrivals browser streaming_r1 after_progress_r1 progress_r1 Hrun)
    as (fs & n & _ & _ & _ & _ & _ & Hkept).
  destruct (Hkept Hev) as (_ & Ht & _).
  exists fs. exact Ht.
Defined.

(** C7 fails as stated: the run [r1] is streaming and six entries have
    arrived when the operator clicks Clear, which is enabled during a run;
    the trace is empty afterwards, with the run still active and its stream
    open. *)
Lemma clear_empties_the_trace :
  ∃ w w', run browser initial (submit_r1 ++ progress_r1) = Some w
        ∧ loading w = true ∧ streaming w = true
        ∧ sources w = [stream_r1]
        ∧ length (traces w) = 6
        ∧ step browser w Click_Clear = Some w'
        ∧ deliver browser plus_text_sample w Click_Clear = Some (Rendered w')
        ∧ loading w' = true ∧ streaming w' = true
        ∧ sources w' = [stream_r1]
        ∧ length (traces w') = 0.
Proof.
  eexists _, _. split; [vm_compute; reflexivity|]. vm_compute. split_and!; done.
Qed.

Lemma submit_body_decides_witness :
  pending submitted !! 0 = Some AwaitStartBody
  ∧ renders browser plus_text_sample submitted = true
  ∧ JObj [] ≠ JNull
  ∧ get (Some (JObj [])) "run_id" = undefined
  ∧ ∃ w2, deliver browser plus_text_sample submitted
            (Json_settled 0 (JsonValue (JObj []))) = Some (Rendered w2)
          ∧ error w2 = error submitted
          ∧ esRef w2 = Some (length (sources submitted)).
Proof.
  assert (H : pending submitted !! 0 = Some AwaitStartBody) by (vm_compute; reflexivity).
  assert (Hr : renders browser plus_text_sample submitted = true)
    by (vm_compute; reflexivity).
  assert (Hv : JObj [] ≠ JNull) by discriminate.
  assert (Hid : get (Some (JObj [])) "run_id" = undefined) by reflexivity.
  do 4 (split; [assumption|]).
  destruct (submit_body_decides browser plus_text_sample submitted 0 [] (JObj []) H Hr)
    as (w1 & w2 & _ & _ & _ & _ & Hbody).
  destruct (Hbody Hv (or_introl Hid)) as (id_text & _ & Hdeliver & Herr & _ & _ & _ & _ & Href & _).
  exists w2. split; [exact Hdeliver|]. split; [exact Herr | exact Href].
Defined.

(** C3 fails as stated: the submit call succeeds with the body [{}], which
    has no [run_id]; no error is raised, and the component goes on to
    stream from [/api/stream/undefined]. *)
Lemma submit_without_run_id_streams :
  ∃ w', run browser initial
          [ Change_task (js "Summarize X"); Click_Run;
            Fetch_settled 0 (Response 200); Json_settled 0 (JsonValue (JObj [])) ]
        = Some w'
      ∧ error w' = None
      ∧ loading w' = true ∧ streaming w' = true
      ∧ runId w' = undefined
      ∧ esRef w' = Some 0
      ∧ sources w' = [ {| es_url := js "/api/stream/undefined"; es_run_id := undefined;
                          closed := false |} ].
Proof.
  eexists. split; [vm_compute; reflexivity|]. vm_compute. split_and!; done.
Qed.


(** The guard is the button: [runSwarm] called directly, with the poll of
    [r1] in flight, lets the result of [r1] become the result shown next to
    the run [r2].  No event of the page does this. *)
Example direct_call_keeps_stale_poll :
  ∃ w', run browser initial
          (submit_r1 ++
           [ done_r1;
             Change_task (js "Summarize Y");
             Call_runSwarm;
             Fetch_settled 2 (Response 200);
             Json_settled 2 (JsonValue (JObj [(js "run_id", JStr (js "r2"))]));
             Fetch_settled 1 (Response 200);
             Json_settled 1 (JsonValue result_r1) ])
        = Some w'
      ∧ runId w' = Some (JStr (js "r2"))
      ∧ esRef w' = Some 1
      ∧ resp w' = result_r1
      ∧ loading w' = false ∧ streaming w' = false.
Proof.
  eexists. split; [vm_compute; reflexivity|]. vm_compute. split_and!; done.
Qed.

(** The scenario of a complete run: the task is submitted, the stream
    reports [ready], [start], [log] and [done], and the poll returns the
    result, which the component then shows with the running flags
    cleared, no error, and the four trace entries in arrival order. *)
Example complete_run :
  ∃ w', run browser initial
          (submit_r1 ++
           [ Stream_event 0 (js "ready") None;
             Stream_event 0 (js "start") (Some (json_text "{'task': 'Summarize X'}"));
             Stream_event 0 (js "log")
               (Some (json_text "{'level': 'INFO', 'message': 'handing off'}"));
             done_r1;
             Fetch_settled 1 (Response 200);
             Json_settled 1 (JsonValue result_r1) ])
        = Some w'
      ∧ resp w' = result_r1
      ∧ error w' = None
      ∧ loading w' = false ∧ streaming w' = false
      ∧ (type ∘ fields) <$> traces w' = [Ready; Start; Log; Done]
      ∧ requests w'
        = [ POST (js "/api/run/start")
              {| payload_task := js "Summarize X"; payload_agents := DEFAULT_AGENTS;
                 payload_settings := DEFAULT_SETTINGS |};
            GET (js "/api/result/r1") ]
      ∧ pending w' = ∅
      ∧ all_closed (sources w').
Proof.
  eexists. split; [vm_compute; reflexivity|]. vm_compute.
  split_and!; try done. repeat constructor.
Qed.

(** The complete run again, with the render after every event: the
    component stays mounted throughout, also when the operator then looks
    at the transcript and at the output, and ends in the state the handlers
    alone lead to. *)
Example complete_run_renders :
  ∃ w', play browser plus_text_sample initial
          (submit_r1 ++ progress_r1 ++
           [ done_r1; Fetch_settled 1 (Response 200);
             Json_settled 1 (JsonValue result_r1);
             Select_tab Transcript; Select_tab Output ])
        = Some w'
      ∧ run browser initial
          (submit_r1 ++ progress_r1 ++
           [ done_r1; Fetch_settled 1 (Response 200);
             Json_settled 1 (JsonValue result_r1);
             Select_tab Transcript; Select_tab Output ])
        = Some w'
      ∧ resp w' = result_r1.
Proof.
  eexists. split; [vm_compute; reflexivity|]. split; [vm_compute; reflexivity | done].
Qed.

(** [safeParse] on the sample host. *)
Example safeParse_samples :
  safeParse browser (json_text "{'level': 'INFO'}")
    = Normal (Some (JObj [(js "level", JStr (js "INFO"))]))
  ∧ safeParse browser (json_text " [1, true, null] ")
    = Normal (Some (JArr [JNum (js "1"); JBool true; JNull]))
  ∧ safeParse browser (js "{oops") = Normal undefined
  ∧ safeParse browser (js "") = Normal undefined
  ∧ safeParse browser (js "undefined") = Normal undefined.
Proof. vm_compute. split_and!; done. Qed.

(** ** The further properties on the sample host *)

Lemma DEFAULT_AGENTS_no_holes : Forall (λ s, s ≠ Hole) DEFAULT_AGENTS.
Proof. repeat (apply Forall_cons; split; [discriminate|]). apply Forall_nil_2. Qed.

Lemma DEFAULT_AGENTS_agents : Forall (λ s, is_agent s = true) DEFAULT_AGENTS.
Proof. repeat (apply Forall_cons; split; [reflexivity|]). apply Forall_nil_2. Qed.

Lemma streaming_r1_reachable : reachable browser streaming_r1.
Proof.
  apply (run_reachable browser initial streaming_r1 submit_r1).
  - apply reachable_initial.
  - repeat constructor; discriminate.
  - vm_compute; reflexivity.
Qed.

Lemma polling_r1_reachable : reachable browser polling_r1.
Proof.
  apply (run_reachable browser initial polling_r1 (submit_r1 ++ [done_r1])).
  - apply reachable_initial.
  - repeat constructor; discriminate.
  - vm_compute; reflexivity.
Qed.

Lemma removeAgent_removes_one_witness :
  Forall (λ s, s ≠ Hole) DEFAULT_AGENTS
  ∧ removeAgent 1 DEFAULT_AGENTS = take 1 DEFAULT_AGENTS ++ drop 2 DEFAULT_AGENTS.
Proof.
  split; [exact DEFAULT_AGENTS_no_holes|].
  exact (proj1 (removeAgent_removes_one DEFAULT_AGENTS 1 DEFAULT_AGENTS_no_holes)).
Defined.

Lemma removeAgent_addAgent_witness :
  Forall (λ s, s ≠ Hole) DEFAULT_AGENTS
  ∧ removeAgent (length DEFAULT_AGENTS) (addAgent DEFAULT_AGENTS) = DEFAULT_AGENTS.
Proof.
  split; [exact DEFAULT_AGENTS_no_holes|].
  exact (removeAgent_addAgent DEFAULT_AGENTS DEFAULT_AGENTS_no_holes).
Defined.

Lemma updateAgent_composes_witness :
  1 < length DEFAULT_AGENTS
  ∧ 2 < length DEFAULT_AGENTS
  ∧ updateAgent 1 use_haiku (updateAgent 1 rename_writer DEFAULT_AGENTS)
    = updateAgent 1 (patch_then rename_writer use_haiku) DEFAULT_AGENTS.
Proof.
  assert (H1 : 1 < length DEFAULT_AGENTS) by (simpl; lia).
  assert (H2 : 2 < length DEFAULT_AGENTS) by (simpl; lia).
  split; [exact H1|]. split; [exact H2|].
  exact (proj1 (updateAgent_composes DEFAULT_AGENTS 1 2 rename_writer use_haiku H1 H2)).
Defined.

Lemma updateAgent_past_end_witness :
  length DEFAULT_AGENTS ≤ 6
  ∧ length (updateAgent 6 rename_writer DEFAULT_AGENTS) = 7.
Proof.
  assert (H : length DEFAULT_AGENTS ≤ 6) by (simpl; lia).
  split; [exact H|].
  exact (proj1 (updateAgent_past_end DEFAULT_AGENTS 6 rename_writer H)).
Defined.

Lemma addAgent_reuses_name_witness :
  Forall (λ s, is_agent s = true) DEFAULT_AGENTS
  ∧ 0 < length DEFAULT_AGENTS
  ∧ ∃ a b,
      addAgent (removeAgent 0 (addAgent DEFAULT_AGENTS)) !! 3 = Some (Agent a)
      ∧ addAgent (removeAgent 0 (addAgent DEFAULT_AGENTS)) !! 4 = Some (Agent b)
      ∧ name a = name b.
Proof.
  assert (H : 0 < length DEFAULT_AGENTS) by (simpl; lia).
  split; [exact DEFAULT_AGENTS_agents|]. split; [exact H|].
  destruct (addAgent_reuses_name DEFAULT_AGENTS 0 DEFAULT_AGENTS_agents H)
    as (a & b & Ha & Hb & Hab & _).
  exists a, b. split; [exact Ha|]. split; [exact Hb | exact Hab].
Defined.

Lemma roster_holds_agents_witness :
  Forall (λ s, is_agent s = true) (agents initial)
  ∧ (∀ idx patch, Update_agent 1 rename_writer = Update_agent idx patch →
       idx < length (agents initial))
  ∧ step browser initial (Update_agent 1 rename_writer)
    = Some (set_agents (updateAgent 1 rename_writer DEFAULT_AGENTS) initial)
  ∧ Forall (λ s, is_agent s = true) (updateAgent 1 rename_writer DEFAULT_AGENTS).
Proof.
  assert (Hidx : ∀ idx patch, Update_agent 1 rename_writer = Update_agent idx patch →
                   idx < length (agents initial))
    by (intros idx patch [= <- _]; simpl; lia).
  assert (Hstep : step browser initial (Update_agent 1 rename_writer)
                  = Some (set_agents (updateAgent 1 rename_writer DEFAULT_AGENTS) initial))
    by reflexivity.
  split; [exact DEFAULT_AGENTS_agents|]. split; [exact Hidx|]. split; [exact Hstep|].
  exact (roster_holds_agents browser initial _ _ DEFAULT_AGENTS_agents Hidx Hstep).
Defined.

Lemma buildUrl_fallback_witness :
  js "/backend//" ≠ []
  ∧ js "/backend//" ≠ js "/"
  ∧ URL_href browser (strip_leading_slashes (js "/api/x")) (js "/backend//") = None
  ∧ js "/backend//" = js "/backend" ++ replicate 2 slash
  ∧ last (js "/backend") ≠ Some slash
  ∧ buildUrl_from browser (js "/backend//") (js "/api/x")
    = js "/backend" ++ slash :: strip_leading_slashes (js "/api/x").
Proof.
  assert (H1 : js "/backend//" ≠ []) by (vm_compute; discriminate).
  assert (H2 : js "/backend//" ≠ js "/") by (vm_compute; discriminate).
  assert (H3 : URL_href browser (strip_leading_slashes (js "/api/x")) (js "/backend//")
               = None) by reflexivity.
  assert (H4 : js "/backend//" = js "/backend" ++ replicate 2 slash)
    by (vm_compute; reflexivity).
  assert (H5 : last (js "/backend") ≠ Some slash) by (vm_compute; discriminate).
  do 5 (split; [assumption|]).
  exact (proj2 (buildUrl_fallback browser (js "/backend//") (js "/api/x") H1 H2 H3)
           (js "/backend") 1 H4 H5).
Defined.

Lemma runSwarm_submits_trimmed_task_witness :
  Exists (λ c, is_whitespace c = false) (task (set_task (js " Summarize X ") initial))
  ∧ ∃ w', step browser (set_task (js " Summarize X ") initial) Call_runSwarm = Some w'
          ∧ requests w'
            = [ POST (buildUrl browser (js "api/run/start"))
                  {| payload_task := trim (js " Summarize X ");
                     payload_agents := DEFAULT_AGENTS;
                     payload_settings := DEFAULT_SETTINGS |} ].
Proof.
  assert (H : Exists (λ c, is_whitespace c = false)
                (task (set_task (js " Summarize X ") initial)))
    by (vm_compute; apply Exists_cons_tl, Exists_cons_hd; reflexivity).
  split; [exact H|].
  destruct (runSwarm_submits_trimmed_task browser (set_task (js " Summarize X ") initial) H)
    as (w' & lead & trail & Hstep & Hreq & _).
  exists w'. split; [exact Hstep | exact Hreq].
Defined.

Lemma submit_failure_is_terminal_witness :
  pending submitting !! 0 = Some AwaitStart
  ∧ (∀ status, Response 500 = Response status → ok status = false)
  ∧ ∃ w', step browser submitting (Fetch_settled 0 (Response 500)) = Some w'
          ∧ error w' = Some (js "HTTP " ++ dec 500)
          ∧ requests w' = requests submitting.
Proof.
  assert (H : pending submitting !! 0 = Some AwaitStart) by (vm_compute; reflexivity).
  assert (Hbad : ∀ status, Response 500 = Response status → ok status = false)
    by (intros status [= <-]; reflexivity).
  split; [exact H|]. split; [exact Hbad|].
  destruct (submit_failure_is_terminal browser submitting 0 (Response 500) H Hbad)
    as (w' & Hstep & Herr & _ & _ & _ & Hreq & _).
  exists w'. split; [exact Hstep|]. split; [exact Herr | exact Hreq].
Defined.

Lemma poll_failure_is_fatal_witness :
  pending polling_r1 !! 1 = Some (AwaitPoll (js "/api/result/r1") 0)
  ∧ (∀ status, Response 404 = Response status → status ≠ 202%N ∧ ok status = false)
  ∧ ∃ w', step browser polling_r1 (Fetch_settled 1 (Response 404)) = Some w'
          ∧ error w' = Some (js "HTTP " ++ dec 404)
          ∧ loading w' = false ∧ streaming w' = false.
Proof.
  assert (H : pending polling_r1 !! 1 = Some (AwaitPoll (js "/api/result/r1") 0))
    by (vm_compute; reflexivity).
  assert (Hbad : ∀ status, Response 404 = Response status →
                   status ≠ 202%N ∧ ok status = false)
    by (intros status [= <-]; split; [discriminate | reflexivity]).
  split; [exact H|]. split; [exact Hbad|].
  destruct (poll_failure_is_fatal browser polling_r1 1 (js "/api/result/r1") 0
              (Response 404) H Hbad)
    as (w' & Hstep & Herr & Hl & Hs & _).
  exists w'. split; [exact Hstep|]. split; [exact Herr|]. split; [exact Hl | exact Hs].
Defined.

Lemma poll_end_clears_flags_witness :
  pending polling_r1 !! 1 = Some (AwaitPoll (js "/api/result/r1") 0)
  ∧ is_poll (AwaitPoll (js "/api/result/r1") 0) = true
  ∧ resumes (Fetch_settled 1 (Response 202)) = Some 1
  ∧ step browser polling_r1 (Fetch_settled 1 (Response 202)) = Some waiting_r1
  ∧ match pending waiting_r1 !! 1 with
    | Some k' =>
        is_poll k' = true
        ∧ loading waiting_r1 = loading polling_r1
        ∧ streaming waiting_r1 = streaming polling_r1
        ∧ error waiting_r1 = error polling_r1 ∧ resp waiting_r1 = resp polling_r1
    | None => loading waiting_r1 = false ∧ streaming waiting_r1 = false
    end.
Proof.
  assert (H : pending polling_r1 !! 1 = Some (AwaitPoll (js "/api/result/r1") 0))
    by (vm_compute; reflexivity).
  assert (Hk : is_poll (AwaitPoll (js "/api/result/r1") 0) = true) by reflexivity.
  assert (He : resumes (Fetch_settled 1 (Response 202)) = Some 1) by reflexivity.
  assert (Hstep : step browser polling_r1 (Fetch_settled 1 (Response 202))
                  = Some waiting_r1) by (vm_compute; reflexivity).
  do 4 (split; [assumption|]).
  exact (poll_end_clears_flags browser polling_r1 waiting_r1 1 _ _ H Hk He Hstep).
Defined.

Lemma poll_never_exceeds_budget_witness :
  run browser initial (submit_r1 ++ [done_r1]) = Some polling_r1
  ∧ pending polling_r1 !! 1 = Some (AwaitPoll (js "/api/result/r1") 0)
  ∧ poll_attempts (AwaitPoll (js "/api/result/r1") 0) = Some 1
  ∧ 1 ≤ 120.
Proof.
  assert (Hrun : run browser initial (submit_r1 ++ [done_r1]) = Some polling_r1)
    by (vm_compute; reflexivity).
  assert (H : pending polling_r1 !! 1 = Some (AwaitPoll (js "/api/result/r1") 0))
    by (vm_compute; reflexivity).
  assert (Hn : poll_attempts (AwaitPoll (js "/api/result/r1") 0) = Some 1)
    by reflexivity.
  do 3 (split; [assumption|]).
  exact (poll_never_exceeds_budget browser (submit_r1 ++ [done_r1]) polling_r1 1 _ 1
           Hrun H Hn).
Defined.

Lemma single_flight_witness :
  reachable browser polling_r1
  ∧ length (open_sources polling_r1) + size (pending polling_r1) ≤ 1.
Proof.
  split; [exact polling_r1_reachable|].
  exact (proj1 (single_flight browser polling_r1 polling_r1_reachable)).
Defined.

Lemma unmount_closes_the_stream_witness :
  reachable browser streaming_r1
  ∧ ∃ w', step browser streaming_r1 Unmount = Some w'
          ∧ all_closed (sources w') ∧ esRef w' = None.
Proof.
  split; [exact streaming_r1_reachable|].
  destruct (unmount_closes_the_stream browser streaming_r1 streaming_r1_reachable)
    as (_ & w' & Hstep & Hclosed & Href & _).
  exists w'. split; [exact Hstep|]. split; [exact Hclosed | exact Href].
Defined.

Lemma done_closes_the_stream_witness :
  sources streaming_r1 !! 0 = Some stream_r1
  ∧ closed stream_r1 = false
  ∧ step browser streaming_r1 done_r1 = Some polling_r1
  ∧ sources polling_r1 !! 0 = Some (close_source stream_r1)
  ∧ ∀ name data', step browser polling_r1 (Stream_event 0 name data') = None.
Proof.
  assert (Hs : sources streaming_r1 !! 0 = Some stream_r1) by (vm_compute; reflexivity).
  assert (Hopen : closed stream_r1 = false) by reflexivity.
  assert (Hstep : step browser streaming_r1 done_r1 = Some polling_r1)
    by (vm_compute; reflexivity).
  do 3 (split; [assumption|]).
  destruct (done_closes_the_stream browser streaming_r1 polling_r1 0 stream_r1
              (Some (json_text "{'status': 'COMPLETED', 'has_output': true}"))
              Hs Hopen Hstep) as (Hclosed & _ & Hsilent & _).
  split; [exact Hclosed | exact Hsilent].
Defined.

Lemma stream_event_only_appends_witness :
  sources streaming_r1 !! 0 = Some stream_r1
  ∧ closed stream_r1 = false
  ∧ js "error" ≠ js "done"
  ∧ renders browser plus_text_sample streaming_r1 = true
  ∧ ∃ w' fs,
      step browser streaming_r1 (Stream_event 0 (js "error") None) = Some w'
      ∧ w' = set_clock (length fs + clock streaming_r1)
               (set_traces (traces streaming_r1 ++ stamp browser (clock streaming_r1) fs)
                  streaming_r1)
      ∧ type <$> fs = [Error; ClientError].
Proof.
  assert (Hs : sources streaming_r1 !! 0 = Some stream_r1) by (vm_compute; reflexivity).
  assert (Hopen : closed stream_r1 = false) by reflexivity.
  assert (Hname : js "error" ≠ js "done") by (vm_compute; discriminate).
  assert (Hr : renders browser plus_text_sample streaming_r1 = true)
    by (vm_compute; reflexivity).
  do 4 (split; [assumption|]).
  destruct (stream_event_only_appends browser plus_text_sample streaming_r1 0 stream_r1
              (js "error") None Hs Hopen Hname Hr)
    as (w' & fs & Hstep & Hw' & Htypes & _).
  exists w', fs. split; [exact Hstep|]. split; [exact Hw' | exact Htypes].
Defined.

(** The render decides what becomes of the component.  A log message that
    is text is shown; one that is an object cannot be rendered in the trace
    panel, and the component is unmounted with its stream closed.  The same
    happens after a submission answered with a run id that is a number:
    the stream is opened, the header cannot render the run id, and the
    cleanup closes the stream again.  With a run id that has no string form
    the submission fails, but its message is not shown either, for the
    same reason. *)
Example render_decides :
  (∃ w', deliver browser plus_text_sample streaming_r1
           (Stream_event 0 (js "log") (Some (json_text "{'message': 'handing off'}")))
         = Some (Rendered w')
       ∧ sources w' = [stream_r1])
  ∧ (∃ w', deliver browser plus_text_sample streaming_r1
             (Stream_event 0 (js "log") (Some (json_text "{'message': {'text': 'x'}}")))
           = Some (Unmounted w')
         ∧ sources w' = [close_source stream_r1] ∧ esRef w' = None)
  ∧ (∃ w', deliver browser plus_text_sample submitted
             (Json_settled 0 (JsonValue (JObj [(js "run_id", JNum (js "5"))])))
           = Some (Unmounted w')
         ∧ error w' = None
         ∧ sources w' = [ {| es_url := js "/api/stream/5";
                             es_run_id := Some (JNum (js "5")); closed := true |} ]
         ∧ esRef w' = None)
  ∧ (∃ w', deliver browser plus_text_sample submitted
             (Json_settled 0
                (JsonValue (JObj [(js "run_id", JObj [(js "toString", JNum (js "1"))])])))
           = Some (Unmounted w')
         ∧ error w' = Some (js "Cannot convert object to primitive value")
         ∧ sources w' = []).
Proof.
  split_and!; (eexists; split; [vm_compute; reflexivity|]); vm_compute; split_and?; done.
Qed.

Lemma trace_entries_are_labelled_witness :
  run browser initial (submit_r1 ++ progress_r1) = Some after_progress_r1
  ∧ Forall (labelled browser) (traces after_progress_r1).
Proof.
  assert (Hrun : run browser initial (submit_r1 ++ progress_r1) = Some after_progress_r1)
    by (vm_compute; reflexivity).
  split; [exact Hrun|].
  exact (trace_entries_are_labelled browser (submit_r1 ++ progress_r1) after_progress_r1
           Hrun).
Defined.

Lemma result_and_failure_exclude_witness :
  reachable browser polling_r1
  ∧ (loading polling_r1 = true → error polling_r1 = None ∧ resp polling_r1 = JNull).
Proof.
  split; [exact polling_r1_reachable|].
  exact (proj1 (result_and_failure_exclude browser polling_r1 polling_r1_reachable)).
Defined.

Lemma requests_go_to_known_endpoints_witness :
  run browser initial (submit_r1 ++ [done_r1]) = Some polling_r1
  ∧ GET (js "/api/result/r1") ∈ requests polling_r1
  ∧ ∃ id_text, js "/api/result/r1" = result_url browser id_text.
Proof.
  assert (Hrun : run browser initial (submit_r1 ++ [done_r1]) = Some polling_r1)
    by (vm_compute; reflexivity).
  assert (Hr : GET (js "/api/result/r1") ∈ requests polling_r1)
    by (vm_compute; apply elem_of_cons; right; apply elem_of_cons; by left).
  split; [exact Hrun|]. split; [exact Hr|].
  exact (requests_go_to_known_endpoints browser (submit_r1 ++ [done_r1]) polling_r1
           (GET (js "/api/result/r1")) Hrun Hr).
Defined.

Lemma streams_are_named_witness :
  run browser initial submit_r1 = Some streaming_r1
  ∧ sources streaming_r1 !! 0 = Some stream_r1
  ∧ ∃ id_text, toString browser (es_run_id stream_r1) = Normal id_text
               ∧ es_url stream_r1 = stream_url browser id_text.
Proof.
  assert (Hrun : run browser initial submit_r1 = Some streaming_r1)
    by (vm_compute; reflexivity).
  assert (Hs : sources streaming_r1 !! 0 = Some stream_r1) by (vm_compute; reflexivity).
  split; [exact Hrun|]. split; [exact Hs|].
  exact (streams_are_named browser submit_r1 streaming_r1 0 stream_r1 Hrun Hs).
Defined.

Lemma tokenSummary_zero_count_witness :
  truthy browser usage_zero_input = true
  ∧ nullish (coalesce (get usage_zero_input "totalTokens")
               (get usage_zero_input "total_tokens")) = true
  ∧ tokenSummary browser plus_text_sample usage_zero_input
    = Normal (Some (js "in " ++ js "0" ++ js "/out " ++ js "5")).
Proof.
  assert (Hu : truthy browser usage_zero_input = true) by reflexivity.
  assert (Hg : nullish (coalesce (get usage_zero_input "totalTokens")
                          (get usage_zero_input "total_tokens")) = true)
    by (vm_compute; reflexivity).
  split; [exact Hu|]. split; [exact Hg|].
  apply (tokenSummary_zero_count browser plus_text_sample usage_zero_input
           (js "0") (js "5") Hu Hg); vm_compute; reflexivity.
Defined.

Lemma tokenSummary_shape_witness :
  tokenSummary browser plus_text_sample usage_total = Normal (Some (js "tok 42"))
  ∧ ((∃ total, js "tok 42" = js "tok " ++ total)
     ∨ (∃ i o, js "tok 42" = js "in " ++ i ++ js "/out " ++ o)).
Proof.
  assert (H : tokenSummary browser plus_text_sample usage_total
              = Normal (Some (js "tok 42"))) by (vm_compute; reflexivity).
  split; [exact H|].
  exact (tokenSummary_shape browser plus_text_sample usage_total (js "tok 42") H).
Defined.

(** [tokenSummary] on the sample host: a total is shown as given, two
    counts are summed, a count of zero leaves the counts unsummed, and
    without a usage object nothing is shown. *)
Example tokenSummary_samples :
  tokenSummary browser plus_text_sample usage_total = Normal (Some (js "tok 42"))
  ∧ tokenSummary browser plus_text_sample usage_counts = Normal (Some (js "tok 42"))
  ∧ tokenSummary browser plus_text_sample usage_zero_input
    = Normal (Some (js "in 0/out 5"))
  ∧ tokenSummary browser plus_text_sample (Some (JObj [])) = Normal None
  ∧ tokenSummary browser plus_text_sample undefined = Normal None.
Proof. vm_compute. split_and!; done. Qed.
